(** * financeradar-app: the client-side state engine of assets/app.js

    A shallow embedding of the filter pipeline, the paginator, the
    device-local read/star store and the event handlers of [assets/app.js],
    with the properties its specification states about them.

    Conventions of the embedding
    - JavaScript numbers that the program only ever uses as integers (page
      numbers, lengths, HTTP status codes) are [Z].
    - The two objects of the store are kept by their own properties (a
      [gmap string json], and for an array its elements as well); a read
      that finds no own property goes on to the members of
      [Object.prototype] (and [Array.prototype]), which are all truthy, and
      a write follows the same chain, where [__proto__] is a setter that
      ignores a boolean.
    - The browser functions the program calls but does not define
      ([String.prototype.toLowerCase], [String.prototype.trim], the
      [URL] parser) are fields of the class [Platform]; the settings read
      from [window.IFR_CONFIG] are fields of the class [Config].
    - The content of the [localStorage] slot is kept as what
      [getItem]/[JSON.parse] make of it ([persisted]), not as raw text.
    - The global mutable objects [state] and [store] are threaded
      explicitly through every function that reads or writes them. *)

From Stdlib Require Import ZArith QArith Qround Ascii String.
From stdpp Require Import gmap strings list fin_maps pretty.
From Stdlib Require Import Sorting.Sorted.

#[local] Open Scope string_scope.
#[local] Open Scope Z_scope.
#[local] Set Warnings "-register-all".

(** ** JavaScript values that come out of [JSON.parse] *)

Inductive json : Type :=
| JNull
| JBool (b : bool)
| JNum (n : Z)
| JStr (s : string)
| JArr (xs : list json)
| JObj (m : gmap string json).

(** [!!v] for a value read from a property; [None] is [undefined]. *)
Definition truthy (v : option json) : bool :=
  match v with
  | None => false
  | Some JNull => false
  | Some (JBool b) => b
  | Some (JNum n) => negb (n =? 0)
  | Some (JStr s) => negb (String.eqb s "")
  | Some (JArr _) => true
  | Some (JObj _) => true
  end.

(** [typeof v === "object"]: true of [null], arrays and plain objects. *)
Definition typeof_object (v : json) : bool :=
  match v with
  | JNull | JArr _ | JObj _ => true
  | _ => false
  end.

(** [Array.prototype.join] on strings. *)
Fixpoint join (sep : string) (xs : list string) : string :=
  match xs with
  | [] => ""
  | [x] => x
  | x :: rest => String.append x (String.append sep (join sep rest))
  end.

(** [String(v)], which is also what a template literal does to [v]. *)
Fixpoint js_String (v : json) : string :=
  match v with
  | JNull => "null"
  | JBool b => if b then "true" else "false"
  | JNum n => pretty n
  | JStr s => s
  | JArr xs =>
      join "," (map (fun x => match x with
                              | JNull => ""
                              | _ => js_String x
                              end) xs)
  | JObj _ => "[object Object]"
  end.

(** [hay.includes(q)]: does [q] occur in [hay]? *)
Fixpoint includes (hay q : string) : bool :=
  String.prefix q hay ||
  match hay with
  | EmptyString => false
  | String _ rest => includes rest q
  end.

(** [Array.prototype.includes] on an array of strings. *)
Definition array_includes (xs : list string) (x : string) : bool :=
  bool_decide (x ∈ xs).

(** [Array.prototype.slice(start, end)] with its treatment of negative and
    out-of-range indices. *)
Definition slice {A} (l : list A) (start stop : Z) : list A :=
  let len := Z.of_nat (length l) in
  let k := if start <? 0 then Z.max (len + start) 0 else Z.min start len in
  let final := if stop <? 0 then Z.max (len + stop) 0 else Z.min stop len in
  take (Z.to_nat (final - k)) (drop (Z.to_nat k) l).

(** [Math.ceil(n / p)] on integers, through the exact quotient. *)
Definition ceil_div (n p : Z) : Z :=
  Qceiling (Qdiv (inject_Z n) (inject_Z p)).

(** ** The environment of the script *)

(** Browser functions used by the script. [URL_hostname s] is
    [new URL(s).hostname], [None] when the constructor throws.
    [null_read_message] is the message of the [TypeError] raised by a
    property read on [null]. [Array_prototype_has k] is [k in
    Array.prototype] for a string [k], which depends on the edition of the
    language that the browser implements. *)
Class Platform := {
  toLowerCase : string → string;
  trim : string → string;
  URL_hostname : string → option string;
  null_read_message : string;
  Array_prototype_has : string → bool
}.

(** [window.IFR_CONFIG]; a field may be missing. *)
Class Config := {
  CFG_PAGE_SIZE : option Z;
  CFG_MAX_VISIBLE_PAGES : option Z
}.

(** [const PAGE_SIZE = CFG.PAGE_SIZE ?? 50] *)
Definition PAGE_SIZE `{Config} : Z := default 50 CFG_PAGE_SIZE.
(** [const MAX_VISIBLE_PAGES = CFG.MAX_VISIBLE_PAGES ?? 10] *)
Definition MAX_VISIBLE_PAGES `{Config} : Z := default 10 CFG_MAX_VISIBLE_PAGES.

(** ** Data *)

Record Feed := { feed_title : option string }.

(** One entry of the dataset; every field may be missing. *)
Record Item := {
  item_id : option string;
  item_title : option string;
  item_url : option string;
  item_feed : option Feed;
  item_tags : option (list string);
  item_published_at : option string
}.

(** The parsed response body, seen through the two properties the script
    reads: [items] is [Some] when it is an array, [error] is the raw value
    of the [error] property. *)
Record Data := {
  items : option (list Item);
  error : option json
}.

(** One of the two objects of the store, by its own properties. A plain
    object comes from [{}] or from a JSON object; an array comes from a JSON
    array: its elements ([None] is a hole), its [length] (the length of the
    list) and the other properties it was given since. *)
Inductive jsobj : Type :=
| PlainObject (own : gmap string json)
| ArrayObject (elems : list (option json)) (own : gmap string json).

(** The read/star store: two objects from ids to flags. *)
Record Store := {
  read : jsobj;
  star : jsobj
}.

(** The global [state] object. *)
Record State := {
  q : string;
  source : string;
  topic : string;
  hideRead : bool;
  starOnly : bool;
  data : option Data;
  fetchedAt : option Z;
  page : Z
}.

(** What [localStorage.getItem(STORE_KEY)] followed by [JSON.parse] yields. *)
Inductive persisted : Type :=
| NoEntry                (* getItem returns null *)
| EmptyText              (* getItem returns the empty string *)
| NotJson                (* JSON.parse throws *)
| Json (v : json).       (* JSON.parse returns v *)

(** ** Property reads and writes on the objects of the store *)

(** The string-keyed members of [Object.prototype]; [__proto__] is the one
    accessor among them. *)
Definition Object_prototype_names : list string :=
  [ "constructor"; "hasOwnProperty"; "isPrototypeOf"; "propertyIsEnumerable";
    "toLocaleString"; "toString"; "valueOf"; "__proto__";
    "__defineGetter__"; "__defineSetter__"; "__lookupGetter__";
    "__lookupSetter__" ].

Definition Object_prototype_has (k : string) : bool :=
  bool_decide (k ∈ Object_prototype_names).

(** The value of a string of decimal digits. *)
Fixpoint digits_value (acc : N) (s : string) : option N :=
  match s with
  | EmptyString => Some acc
  | String c rest =>
      let n := N_of_ascii c in
      if (48 <=? n)%N && (n <=? 57)%N
      then digits_value (acc * 10 + (n - 48))%N rest
      else None
  end.

(** An array index: the canonical decimal text of a number below
    [2^32 - 1]. *)
Definition array_index (k : string) : option nat :=
  match k with
  | EmptyString => None
  | _ =>
      match digits_value 0 k with
      | Some n =>
          if String.eqb (pretty n) k && (n <? 4294967295)%N
          then Some (N.to_nat n) else None
      | None => None
      end
  end.

(** The own property [k] of an object, if it has one. *)
Definition own_value (o : jsobj) (k : string) : option json :=
  match o with
  | PlainObject own => own !! k
  | ArrayObject elems own =>
      if String.eqb k "length" then Some (JNum (Z.of_nat (length elems)))
      else match array_index k with
           | Some i => mjoin (elems !! i)
           | None => own !! k
           end
  end.

Section Objects.
Context `{!Platform}.

(** [k in] the prototype chain of the object. *)
Definition inherits (o : jsobj) (k : string) : bool :=
  match o with
  | PlainObject _ => Object_prototype_has k
  | ArrayObject _ _ => Array_prototype_has k || Object_prototype_has k
  end.

(** [!!o[k]]: the own property when there is one, else the inherited
    member, which is a function or (for [__proto__]) the prototype object,
    hence truthy. *)
Definition reads_truthy (o : jsobj) (k : string) : bool :=
  match own_value o k with
  | Some v => truthy (Some v)
  | None => inherits o k
  end.

End Objects.

(** [arr.length = n] for [n] 0 or 1: the elements beyond go, missing ones
    are holes. *)
Definition set_length {A} (n : nat) (elems : list (option A)) : list (option A) :=
  take n elems ++ replicate (n - length elems) None.

(** [arr[i] = v]: in place, or after as many holes as it takes. *)
Definition set_element {A} (i : nat) (v : A) (elems : list (option A))
  : list (option A) :=
  if (i <? length elems)%nat then <[i := Some v]> elems
  else elems ++ replicate (i - length elems) None ++ [Some v].

(** [o[k] = b] for a boolean [b]. An own property is overwritten; a name
    found in the prototype chain as a method gets an own property; the
    inherited [__proto__] is a setter that ignores a boolean; on an array,
    an index writes an element and ["length"] takes [b] as the number 1
    or 0. *)
Definition assign (o : jsobj) (k : string) (b : bool) : jsobj :=
  match o with
  | PlainObject own =>
      if bool_decide (is_Some (own !! k)) || negb (String.eqb k "__proto__")
      then PlainObject (<[k := JBool b]> own)
      else o
  | ArrayObject elems own =>
      if String.eqb k "length"
      then ArrayObject (set_length (if b then 1 else 0) elems) own
      else match array_index k with
           | Some i => ArrayObject (set_element i (JBool b) elems) own
           | None =>
               if bool_decide (is_Some (own !! k))
                  || negb (String.eqb k "__proto__")
               then ArrayObject elems (<[k := JBool b]> own)
               else o
           end
  end.

(** ** Store read/star (device-only) *)

Definition empty_record : Store :=
  {| read := PlainObject ∅; star := PlainObject ∅ |}.

(** [obj.k] for [k] one of "read" and "star" on a value that is not
    [null]: no prototype has a member of these names, so only a plain
    object can hold one. *)
Definition get_prop (obj : json) (k : string) : option json :=
  match obj with
  | JObj m => m !! k
  | _ => None
  end.

(** A parsed object or array as an object of the store. *)
Definition object_of_json (v : json) : jsobj :=
  match v with
  | JArr xs => ArrayObject (Some <$> xs) ∅
  | JObj m => PlainObject m
  | _ => PlainObject ∅
  end.

(** [v && typeof v === "object" ? v : {}] *)
Definition object_or_empty (v : option json) : jsobj :=
  match v with
  | Some x =>
      if truthy (Some x) && typeof_object x then object_of_json x
      else PlainObject ∅
  | None => PlainObject ∅
  end.

(** The [try] block of [loadStore]; [None] stands for a thrown exception
    ([JSON.parse] on text that is not JSON, a property read on [null]). *)
Definition loadStore_try (raw : persisted) : option Store :=
  match raw with
  | NoEntry | EmptyText => Some empty_record
  | NotJson => None
  | Json JNull => None
  | Json obj =>
      Some {| read := object_or_empty (get_prop obj "read");
              star := object_or_empty (get_prop obj "star") |}
  end.

(** [loadStore]: the [try] block, and the empty record from the [catch]. *)
Definition loadStore (raw : persisted) : Store :=
  match loadStore_try raw with
  | Some r => r
  | None => empty_record
  end.

(** What [JSON.stringify] writes for an object of the store: the own
    properties of a plain object; of an array the elements only, a hole as
    [null]. *)
Definition json_of_object (o : jsobj) : json :=
  match o with
  | PlainObject own => JObj own
  | ArrayObject elems _ => JArr (default JNull <$> elems)
  end.

(** The value that [JSON.stringify(store)] denotes. *)
Definition json_of_store (s : Store) : json :=
  JObj (<["read" := json_of_object (read s)]>
          (<["star" := json_of_object (star s)]> ∅)).

(** The program's mutable world: [state], [store] and the storage slot. *)
Record World := {
  state : State;
  store : Store;
  slot : persisted
}.

(** [saveStore]: [localStorage.setItem(STORE_KEY, JSON.stringify(store))] *)
Definition saveStore (w : World) : World :=
  {| state := state w; store := store w; slot := Json (json_of_store (store w)) |}.

(** ** Field updates of [state] and [store] *)

Definition set_q (v : string) (s : State) : State :=
  {| q := v; source := source s; topic := topic s; hideRead := hideRead s;
     starOnly := starOnly s; data := data s; fetchedAt := fetchedAt s;
     page := page s |}.
Definition set_source (v : string) (s : State) : State :=
  {| q := q s; source := v; topic := topic s; hideRead := hideRead s;
     starOnly := starOnly s; data := data s; fetchedAt := fetchedAt s;
     page := page s |}.
Definition set_topic (v : string) (s : State) : State :=
  {| q := q s; source := source s; topic := v; hideRead := hideRead s;
     starOnly := starOnly s; data := data s; fetchedAt := fetchedAt s;
     page := page s |}.
Definition set_hideRead (v : bool) (s : State) : State :=
  {| q := q s; source := source s; topic := topic s; hideRead := v;
     starOnly := starOnly s; data := data s; fetchedAt := fetchedAt s;
     page := page s |}.
Definition set_starOnly (v : bool) (s : State) : State :=
  {| q := q s; source := source s; topic := topic s; hideRead := hideRead s;
     starOnly := v; data := data s; fetchedAt := fetchedAt s;
     page := page s |}.
Definition set_data (v : option Data) (s : State) : State :=
  {| q := q s; source := source s; topic := topic s; hideRead := hideRead s;
     starOnly := starOnly s; data := v; fetchedAt := fetchedAt s;
     page := page s |}.
Definition set_fetchedAt (v : option Z) (s : State) : State :=
  {| q := q s; source := source s; topic := topic s; hideRead := hideRead s;
     starOnly := starOnly s; data := data s; fetchedAt := v;
     page := page s |}.
Definition set_page (v : Z) (s : State) : State :=
  {| q := q s; source := source s; topic := topic s; hideRead := hideRead s;
     starOnly := starOnly s; data := data s; fetchedAt := fetchedAt s;
     page := v |}.

(** [store.read[id] = b] and [store.star[id] = b] *)
Definition set_read (id : string) (b : bool) (s : Store) : Store :=
  {| read := assign (read s) id b; star := star s |}.
Definition set_star (id : string) (b : bool) (s : Store) : Store :=
  {| read := read s; star := assign (star s) id b |}.

Definition with_state (s : State) (w : World) : World :=
  {| state := s; store := store w; slot := slot w |}.
Definition with_store (s : Store) (w : World) : World :=
  {| state := state w; store := s; slot := slot w |}.

(** [let state = {...}] *)
Definition initial_state : State :=
  {| q := ""; source := ""; topic := ""; hideRead := false; starOnly := false;
     data := None; fetchedAt := None; page := 1 |}.

(** ** What a render writes to the page *)

(** The pagination bar: the "Page p of n" text, the numbered buttons, the
    two boundary buttons, and the page count the click handlers captured. *)
Record Pagination := {
  pageMeta : Z * Z;
  prev_disabled : bool;
  numbered : list Z;
  next_disabled : bool;
  captured_totalPages : Z
}.

Inductive Content : Type :=
| Fetching
| NoResults
| Cards (shown : list Item)
| Failed (msg : string).

(** [pagination] is [None] when the render left the bar as it was. *)
Record View := {
  content : Content;
  pagination : option Pagination
}.

Section App.
Context `{!Platform, !Config}.

(** ** Utilities *)

(** [hostname.replace(/^www\./, "")] *)
Definition strip_www (h : string) : string :=
  match h with
  | String "w"%char (String "w"%char (String "w"%char (String "."%char rest))) =>
      rest
  | _ => h
  end.

Definition hostFromUrl (url : string) : string :=
  match URL_hostname url with
  | Some h => strip_www h
  | None => ""
  end.

(** [it.feed?.title || ""] *)
Definition feedTitle (it : Item) : string :=
  match item_feed it with
  | Some f => default "" (feed_title f)
  | None => ""
  end.

(** [String(it.id ?? "")] *)
Definition id_of (it : Item) : string := default "" (item_id it).

(** ** Filters + Pagination *)

(** The text a query is searched in. *)
Definition hay (it : Item) : string :=
  toLowerCase
    (join " " [ default "" (item_title it);
                feedTitle it;
                hostFromUrl (default "" (item_url it));
                match item_tags it with
                | Some ts => join " " ts
                | None => ""
                end ]).

(** The callback of [items.filter] in [applyFilters]; [qq] is the trimmed,
    lowercased query computed once before the loop. *)
Definition keep (st : State) (sto : Store) (qq : string) (it : Item) : bool :=
  if negb (String.eqb (source st) "")
     && negb (String.eqb (feedTitle it) (source st)) then false
  else if negb (String.eqb (topic st) "")
          && negb (match item_tags it with
                   | Some ts => array_includes ts (topic st)
                   | None => false
                   end) then false
  else
    let id := id_of it in
    let isRead := reads_truthy (read sto) id in
    let isStar := reads_truthy (star sto) id in
    if hideRead st && isRead then false
    else if starOnly st && negb isStar then false
    else if String.eqb qq "" then true
    else includes (hay it) qq.

Definition applyFilters (st : State) (sto : Store) (its : list Item) : list Item :=
  let qq := toLowerCase (trim (q st)) in
  List.filter (keep st sto qq) its.

Definition clampPage (p totalPages : Z) : Z :=
  if totalPages <=? 0 then 1
  else Z.max 1 (Z.min totalPages p).

(** [getPaged] writes [state.page] and returns [{pageItems, totalPages}]. *)
Definition getPaged (st : State) (its : list Item) : State * (list Item * Z) :=
  let totalPages := Z.max 1 (ceil_div (Z.of_nat (length its)) PAGE_SIZE) in
  let st' := set_page (clampPage (page st) totalPages) st in
  let start := (page st' - 1) * PAGE_SIZE in
  (st', (slice its start (start + PAGE_SIZE), totalPages)).

Definition renderPagination (st : State) (totalPages : Z) : Pagination :=
  let visiblePages := Z.min totalPages MAX_VISIBLE_PAGES in
  {| pageMeta := (page st, totalPages);
     prev_disabled := page st =? 1;
     numbered := seqZ 1 visiblePages;
     next_disabled := page st =? totalPages;
     captured_totalPages := totalPages |}.

(** ** Render *)

(** [Array.isArray(state.data.items) ? state.data.items : []] *)
Definition allItems (d : Data) : list Item := default [] (items d).

Definition render (sto : Store) (st : State) : State * View :=
  match data st with
  | None => (st, {| content := Fetching; pagination := None |})
  | Some d =>
      let filtered := applyFilters st sto (allItems d) in
      if (Z.of_nat (length filtered) =? 0) then
        (st, {| content := NoResults;
                pagination := Some (renderPagination st 1) |})
      else
        let '(st', (pageItems, totalPages)) := getPaged st filtered in
        (st', {| content := Cards pageItems;
                 pagination := Some (renderPagination st' totalPages) |})
  end.

(** [render()] as a step of the world; the view is what the user now sees. *)
Definition render_world (w : World) : World * View :=
  let '(st', v) := render (store w) (state w) in
  (with_state st' w, v).

(** ** Card buttons *)

(** [if(action === "read") ...; if(action === "star") ...]: the flag named
    by the button's [data-action] is replaced by its negation. *)
Definition toggle_flags (action id : string) (s0 : Store) : Store :=
  let s1 := if String.eqb action "read"
            then set_read id (negb (reads_truthy (read s0) id)) s0
            else s0 in
  if String.eqb action "star"
  then set_star id (negb (reads_truthy (star s1) id)) s1
  else s1.

(** The click handler of a card's "Star" / "Mark read" button. [action] is
    the button's [data-action], [id] the card's [data-id]. Nothing happens
    for an empty id; otherwise the flag is flipped, the store saved and the
    page rendered again. *)
Definition onMiniClick (action id : string) (w : World) : World * option View :=
  if String.eqb id "" then (w, None)
  else
    let '(w', v) :=
      render_world (saveStore (with_store (toggle_flags action id (store w)) w)) in
    (w', Some v).

(** The click handler of a card's headline link: marks the item read and
    saves; the page is not rendered again. *)
Definition onHeadlineClick (id : string) (w : World) : World * option View :=
  if String.eqb id "" then (w, None)
  else (saveStore (with_store (set_read id true (store w)) w), None).

(** ** Pagination buttons *)

Inductive PageBtn : Type :=
| BtnPrev
| BtnNext
| BtnNum (p : Z).

(** The click handler installed by [renderPagination(totalPages)]; a
    numbered button carries [data-page = p] and [parseInt(v, 10) || 1]
    reads it back. *)
Definition onPageClick (btn : PageBtn) (totalPages : Z) (w : World)
  : World * option View :=
  let st := state w in
  let p := match btn with
           | BtnPrev => Z.max 1 (page st - 1)
           | BtnNext => Z.min totalPages (page st + 1)
           | BtnNum n => if n =? 0 then 1 else n
           end in
  let '(w', v) := render_world (with_state (set_page p st) w) in
  (w', Some v).

(** ** Fetch *)

(** [JSON.parse(text)] of a response body: it throws, or returns [null], or
    returns an object. (Scalar bodies are outside this model.) *)
Inductive Body : Type :=
| NotJsonBody
| NullBody
| ObjectBody (d : Data).

Record Response := {
  ok : bool;
  status : Z;
  body : Body
}.

(** How [fetch] settles: rejected with an error message, or resolved. *)
Inductive Fetched : Type :=
| Rejected (msg : string)
| Resolved (r : Response).

(** A thrown error: its [name] and its [message]. *)
Record Err := {
  err_name : string;
  err_message : string
}.

Definition new_Error (msg : string) : Err :=
  {| err_name := "Error"; err_message := msg |}.

(** [fetchCandidates]: the left injection is the thrown error, the right
    one the returned data ([None] when the body is the JSON [null]). *)
Definition fetchCandidates (f : Fetched) : Err + option Data :=
  match f with
  | Rejected msg => inl {| err_name := "TypeError"; err_message := msg |}
  | Resolved resp =>
      match body resp with
      | NotJsonBody => inl (new_Error "API did not return JSON.")
      | NullBody =>
          if negb (ok resp)
          then inl (new_Error (String.append "HTTP " (pretty (status resp))))
          else inr None
      | ObjectBody d =>
          if negb (ok resp) then
            let msg := match error d with
                       | Some e => if truthy (Some e) then js_String e
                                   else String.append "HTTP " (pretty (status resp))
                       | None => String.append "HTTP " (pretty (status resp))
                       end in
            inl (new_Error msg)
          else inr (Some d)
      end
  end.

(** [err.message || err] inside a template literal. *)
Definition shown_message (e : Err) : string :=
  if String.eqb (err_message e) "" then err_name e else err_message e.

(** The [catch] block of [fetchAndRender]. *)
Definition fetch_failed (e : Err) (st : State) : State * View :=
  (set_data None st,
   {| content := Failed (String.append "Failed to load: " (shown_message e));
      pagination := None |}).

(** [fetchAndRender] once the request has settled at time [now].
    ([buildFilters] only fills the two select controls.) *)
Definition fetchAndRender (f : Fetched) (now : Z) (w : World) : World * option View :=
  let '(st', v) :=
    match fetchCandidates f with
    | inl e => fetch_failed e (state w)
    | inr d =>
        let st1 := set_page 1 (set_fetchedAt (Some now) (set_data d (state w))) in
        match d with
        | None =>
            fetch_failed {| err_name := "TypeError";
                            err_message := null_read_message |} st1
        | Some _ => render (store w) st1
        end
    end in
  (with_state st' w, Some v).

(** ** Events *)

Definition onFilterChange (upd : State → State) (w : World) : World * option View :=
  let '(w', v) := render_world (with_state (set_page 1 (upd (state w))) w) in
  (w', Some v).

Inductive Event : Type :=
| QueryInput (v : string)
| SourceChange (v : string)
| TopicChange (v : string)
| HideReadChange (checked : bool)
| StarOnlyChange (checked : bool)
| EscapeKey
| PageClick (btn : PageBtn) (totalPages : Z)
| MiniClick (action id : string)
| HeadlineClick (id : string)
| FetchSettled (f : Fetched) (now : Z).

Definition handle (e : Event) (w : World) : World * option View :=
  match e with
  | QueryInput v => onFilterChange (set_q v) w
  | SourceChange v => onFilterChange (set_source v) w
  | TopicChange v => onFilterChange (set_topic v) w
  | HideReadChange b => onFilterChange (set_hideRead b) w
  | StarOnlyChange b => onFilterChange (set_starOnly b) w
  | EscapeKey => onFilterChange (set_q "") w
  | PageClick btn tp => onPageClick btn tp w
  | MiniClick action id => onMiniClick action id w
  | HeadlineClick id => onHeadlineClick id w
  | FetchSettled f now => fetchAndRender f now w
  end.

(** The world after a sequence of events. *)
Definition run (es : list Event) (w : World) : World :=
  fold_left (fun w e => fst (handle e w)) es w.

End App.

(** [const store = loadStore()] and the initial [state]. *)
Definition boot (raw : persisted) : World :=
  {| state := initial_state; store := loadStore raw; slot := raw |}.

(** ** A concrete environment, for running the program on examples

    Plain ASCII text: [toLowerCase] maps A-Z to a-z, [trim] removes the
    ASCII white space and line terminators at both ends, and the URL reader
    knows the form [scheme://host[:port][/path][?query][#fragment]] and
    rejects text without ["://"]. On such inputs a browser computes the
    same results. The settings are those of [assets/config.js]. *)

Definition ascii_lower (c : ascii) : ascii :=
  let n := nat_of_ascii c in
  if (65 <=? n)%nat && (n <=? 90)%nat then ascii_of_nat (n + 32) else c.

Fixpoint ascii_toLowerCase (s : string) : string :=
  match s with
  | EmptyString => EmptyString
  | String c rest => String (ascii_lower c) (ascii_toLowerCase rest)
  end.

Definition is_space (c : ascii) : bool :=
  let n := nat_of_ascii c in
  ((9 <=? n)%nat && (n <=? 13)%nat) || (n =? 32)%nat.

Fixpoint trim_start (s : string) : string :=
  match s with
  | EmptyString => EmptyString
  | String c rest => if is_space c then trim_start rest else s
  end.

Fixpoint trim_end (s : string) : string :=
  match s with
  | EmptyString => EmptyString
  | String c rest =>
      match trim_end rest with
      | EmptyString => if is_space c then EmptyString else String c EmptyString
      | rest' => String c rest'
      end
  end.

Definition ascii_trim (s : string) : string := trim_end (trim_start s).

(** The text after the first ["://"], if any. *)
Fixpoint after_scheme (s : string) : option string :=
  match s with
  | String ":"%char (String "/"%char (String "/"%char authority)) =>
      Some authority
  | String _ rest => after_scheme rest
  | EmptyString => None
  end.

Definition ends_host (c : ascii) : bool :=
  (Ascii.eqb c "/" || Ascii.eqb c "?" || Ascii.eqb c "#" || Ascii.eqb c ":")%char.

Fixpoint host_part (s : string) : string :=
  match s with
  | EmptyString => EmptyString
  | String c rest => if ends_host c then EmptyString else String c (host_part rest)
  end.

Definition ascii_hostname (s : string) : option string :=
  match after_scheme s with
  | Some authority => Some (ascii_toLowerCase (host_part authority))
  | None => None
  end.

(** The string-keyed members of [Array.prototype] in the 2023 edition. *)
Definition Array_prototype_names_2023 : list string :=
  [ "at"; "concat"; "constructor"; "copyWithin"; "entries"; "every"; "fill";
    "filter"; "find"; "findIndex"; "findLast"; "findLastIndex"; "flat";
    "flatMap"; "forEach"; "includes"; "indexOf"; "join"; "keys";
    "lastIndexOf"; "length"; "map"; "pop"; "push"; "reduce"; "reduceRight";
    "reverse"; "shift"; "slice"; "some"; "sort"; "splice"; "toLocaleString";
    "toReversed"; "toSorted"; "toSpliced"; "toString"; "unshift"; "values";
    "with" ].

#[export] Instance ascii_platform : Platform := {|
  toLowerCase := ascii_toLowerCase;
  trim := ascii_trim;
  URL_hostname := ascii_hostname;
  null_read_message := "Cannot read properties of null (reading 'items')";
  Array_prototype_has := λ k, bool_decide (k ∈ Array_prototype_names_2023)
|}.

(** [window.IFR_CONFIG] of [assets/config.js]. *)
#[export] Instance IFR_CONFIG : Config := {|
  CFG_PAGE_SIZE := Some 50;
  CFG_MAX_VISIBLE_PAGES := Some 10
|}.

(** * Definitions in the specification's words *)

(** [needle] is a substring of [text]. *)
Definition is_substring (needle text : string) : Prop :=
  ∃ before after, text = String.append before (String.append needle after).

(** The boolean a flag stands for in a mapping of ids to flags: the entry
    of the id, an absent entry counting as [false]. *)
Definition flag (o : jsobj) (id : string) : bool := truthy (own_value o id).

(** The object is a plain object, not an array. *)
Definition is_plain (o : jsobj) : Prop :=
  match o with
  | PlainObject _ => True
  | ArrayObject _ _ => False
  end.

(** Both mappings of the store are plain objects. *)
Definition plain_store (s : Store) : Prop :=
  is_plain (read s) ∧ is_plain (star s).

(** The id is not the name of a member of [Object.prototype]. *)
Definition ordinary_id (id : string) : Prop := id ∉ Object_prototype_names.

Section FilterSpec.
Context {env : Platform}.

(** Title, source label, hostname and space-joined tags put end to end, all
    lowercased. *)
Definition concatenated_text (it : Item) : string :=
  toLowerCase
    (String.append (default "" (item_title it))
       (String.append (feedTitle it)
          (String.append (hostFromUrl (default "" (item_url it)))
             (join " " (default [] (item_tags it)))))).

(** The same four texts with one space between neighbours, all lowercased. *)
Definition spaced_text (it : Item) : string :=
  toLowerCase
    (String.append (default "" (item_title it))
       (String.append " "
          (String.append (feedTitle it)
             (String.append " "
                (String.append (hostFromUrl (default "" (item_url it)))
                   (String.append " "
                      (join " " (default [] (item_tags it))))))))).

(** The five checks of the filter engine, each as what an item must
    satisfy to survive it. *)
Definition survives_source (st : State) (it : Item) : Prop :=
  source st ≠ "" → feedTitle it = source st.

Definition survives_topic (st : State) (it : Item) : Prop :=
  topic st ≠ "" → ∃ ts, item_tags it = Some ts ∧ topic st ∈ ts.

Definition survives_hideRead (flagof : jsobj → string → bool)
    (st : State) (sto : Store) (it : Item) : Prop :=
  hideRead st = true → flagof (read sto) (id_of it) = false.

Definition survives_starOnly (flagof : jsobj → string → bool)
    (st : State) (sto : Store) (it : Item) : Prop :=
  starOnly st = true → flagof (star sto) (id_of it) = true.

Definition survives_query (text : Item → string) (st : State) (it : Item) : Prop :=
  let qq := toLowerCase (trim (q st)) in
  qq ≠ "" → is_substring qq (text it).

(** An item passes when it survives the five checks; [flagof] is the way a
    flag is read off a mapping, [text] the text a query is searched in. *)
Definition passes (flagof : jsobj → string → bool) (text : Item → string)
    (st : State) (sto : Store) (it : Item) : Prop :=
  survives_source st it
  ∧ survives_topic st it
  ∧ survives_hideRead flagof st sto it
  ∧ survives_starOnly flagof st sto it
  ∧ survives_query text st it.

(** The filter property over the items that [covered] holds of, for a
    given reading of "the text searched". *)
Definition filter_property (covered : Item → Prop) (text : Item → string)
    (st : State) (sto : Store) (its : list Item) : Prop :=
  let out := applyFilters st sto its in
  sublist out its
  ∧ (∀ it, it ∈ out → covered it → passes flag text st sto it)
  ∧ (∀ it, it ∈ its → it ∉ out → covered it → ¬ passes flag text st sto it).

(** Every item. *)
Definition any_item (it : Item) : Prop := True.

(** The items whose id is not the name of a member of [Object.prototype]. *)
Definition ordinary_item (it : Item) : Prop := ordinary_id (id_of it).

End FilterSpec.

(** ** The annotation store, in the specification's words *)

(** A mapping of ids to booleans. *)
Definition flags_mapping (v : json) : Prop :=
  ∃ m, v = JObj m ∧ ∀ k x, m !! k = Some x → ∃ b, x = JBool b.

(** A persisted value of the right shape: a JSON object whose [read] and
    [star] fields are mappings of ids to booleans. *)
Definition annotation_record (raw : persisted) : Prop :=
  ∃ m r s, raw = Json (JObj m)
           ∧ m !! "read" = Some r ∧ flags_mapping r
           ∧ m !! "star" = Some s ∧ flags_mapping s.

(** The field is a JSON array. *)
Definition array_field (v : option json) : Prop := ∃ xs, v = Some (JArr xs).

(** What [loadStore] makes of one field of a persisted object that is not
    an array: a JSON object is kept whatever it holds, anything else gives
    [{}]. *)
Definition kept_field (v : option json) : jsobj :=
  match v with
  | Some (JObj m) => PlainObject m
  | _ => PlainObject ∅
  end.

(** The persisted value is no JSON object: nothing stored, text that is
    not JSON, [null], a scalar or an array. *)
Definition no_json_object (raw : persisted) : Prop :=
  ∀ m, raw ≠ Json (JObj m).

(** A persisted object whose [read] field maps an id to a string. *)
Definition persisted_yes : persisted :=
  Json (JObj (<["read" := JObj (<["a" := JStr "yes"]> ∅)]>
               (<["star" := JObj ∅]> ∅))).

(** A persisted object whose [read] field is an array. *)
Definition persisted_array : persisted :=
  Json (JObj (<["read" := JArr []]> (<["star" := JObj ∅]> ∅))).

(** * Example data *)

Definition empty_store : Store :=
  {| read := PlainObject ∅; star := PlainObject ∅ |}.

Definition plain_item (id title source_label : string) : Item :=
  {| item_id := Some id; item_title := Some title; item_url := None;
     item_feed := Some {| feed_title := Some source_label |};
     item_tags := None; item_published_at := None |}.

Definition dataset (its : list Item) : Data :=
  {| items := Some its; error := None |}.

(** Three items of two sources, the first one already read. *)
Definition item_A : Item := plain_item "a" "Rates held" "Reuters".
Definition item_B : Item := plain_item "b" "Gold slips" "Reuters".
Definition item_C : Item := plain_item "c" "Oil rises" "AP".

Definition reuters_unread : State :=
  set_hideRead true (set_source "Reuters" initial_state).

Definition store_A_read : Store := set_read "a" true empty_store.

(** An item whose title ends where its source label begins. *)
Definition item_gold_mint : Item := plain_item "g" "Gold" "Mint".

Definition query_goldmint : State := set_q "goldmint" initial_state.

(** An item that carries the name of a member of [Object.prototype] as its
    id. *)
Definition item_constructor : Item := plain_item "constructor" "Builders" "AP".

Definition hide_read_on : State := set_hideRead true initial_state.

(** ** The paginator, in the specification's words *)

(** [clamp(x, lo, hi)] *)
Definition clamp (x lo hi : Z) : Z := Z.max lo (Z.min hi x).

(** [items[a : b]] for indices [0 <= a <= b]. *)
Definition items_from_to {A} (l : list A) (a b : nat) : list A :=
  drop a (take b l).

(** The items shown when the stored page number is [k]. *)
Definition page_of `{cfg : Config} (st : State) (its : list Item) (k : Z) : list Item :=
  (getPaged (set_page k st) its).2.1.

(** ** The view state, in the specification's words *)

Section ViewSpec.
Context {env : Platform} {cfg : Config}.

(** The current filtered result; empty while there is no dataset. *)
Definition filtered_of (sto : Store) (st : State) : list Item :=
  match data st with
  | Some d => applyFilters st sto (allItems d)
  | None => []
  end.

(** [max(1, ceil(count / pageSize))] *)
Definition totalPages_of (count : nat) : Z :=
  Z.max 1 (ceil_div (Z.of_nat count) PAGE_SIZE).

(** The page invariant of the view state. *)
Definition page_in_range (w : World) : Prop :=
  1 ≤ page (state w) ≤ totalPages_of (length (filtered_of (store w) (state w))).

(** The filter criteria of two states agree. *)
Definition same_criteria (s1 s2 : State) : Prop :=
  q s1 = q s2 ∧ source s1 = source s2 ∧ topic s1 = topic s2
  ∧ hideRead s1 = hideRead s2 ∧ starOnly s1 = starOnly s2.





(** What a toggle of [id]'s flag leaves alone, the page number apart. *)
Definition read_toggle_frame (id : string) (w w1 : World) : Prop :=
  (∀ id', id' ≠ id →
     own_value (read (store w1)) id' = own_value (read (store w)) id')
  ∧ star (store w1) = star (store w)
  ∧ data (state w1) = data (state w)
  ∧ same_criteria (state w1) (state w).

Definition star_toggle_frame (id : string) (w w1 : World) : Prop :=
  (∀ id', id' ≠ id →
     own_value (star (store w1)) id' = own_value (star (store w)) id')
  ∧ read (store w1) = read (store w)
  ∧ data (state w1) = data (state w)
  ∧ same_criteria (state w1) (state w).

(** The page number that a render leaves when it finds the page number
    [p]: [p] itself when nothing matches (also while there is no dataset),
    and [clamp(p, 1, totalPages)] of the filtered result otherwise. *)
Definition rendered_page (sto : Store) (st : State) (p : Z) : Z :=
  if bool_decide (filtered_of sto st = []) then p
  else clamp p 1 (totalPages_of (length (filtered_of sto st))).

(** The page number after a click on a card button of [id]: for the empty
    id the one before, otherwise what the render of the new store makes of
    the one before. *)
Definition page_after_toggle (id : string) (w w1 : World) : Prop :=
  page (state w1)
  = if bool_decide (id = "") then page (state w)
    else rendered_page (store w1) (state w1) (page (state w)).

(** The page a pagination button asks for. *)
Definition requested_page (btn : PageBtn) (totalPages : Z) (st : State) : Z :=
  match btn with
  | BtnPrev => Z.max 1 (page st - 1)
  | BtnNext => Z.min totalPages (page st + 1)
  | BtnNum n => if n =? 0 then 1 else n
  end.

(** The events that change a filter criterion. *)
Definition changes_criterion (e : Event) : bool :=
  match e with
  | QueryInput _ | SourceChange _ | TopicChange _
  | HideReadChange _ | StarOnlyChange _ | EscapeKey => true
  | _ => false
  end.

End ViewSpec.

(** ** Worlds used in examples *)

(** A first visit: nothing persisted yet. *)
Definition fresh_world : World :=
  {| state := initial_state; store := empty_store; slot := NoEntry |}.

(** A visit on which the stored record has the array [[]] as its [read]
    field. *)
Definition array_world : World := boot persisted_array.

(** [n] items with ids "1" .. "n". *)
Definition numbered_items (n : nat) : list Item :=
  map (λ i, plain_item (pretty (Z.of_nat i)) "Headline" "Wire") (seq 1 n).

(** [n] items that all carry the id "x". *)
Definition same_id_items (n : nat) : list Item :=
  replicate n (plain_item "x" "Headline" "Wire").

(** A successful response carrying [its]. *)
Definition ok_response (its : list Item) : Fetched :=
  Resolved {| ok := true; status := 200; body := ObjectBody (dataset its) |}.

(** The given items are loaded, "hide read" is ticked, page 2 is opened. *)
Definition browse_to_page_2 (its : list Item) : list Event :=
  [ FetchSettled (ok_response its) 0;
    HideReadChange true;
    PageClick (BtnNum 2) 2 ].

(** 51 items are loaded and starred one by one (50 on page 1, the last on
    page 2), "starred only" is ticked, page 2 is opened. *)
Definition star_all_then_page_2 : list Event :=
  [ FetchSettled (ok_response (numbered_items 51)) 0 ]
  ++ map (λ i, MiniClick "star" (pretty (Z.of_nat i))) (seq 1 50)
  ++ [ PageClick (BtnNum 2) 2; MiniClick "star" "51";
       StarOnlyChange true; PageClick (BtnNum 2) 2 ].

(** An error response whose [error] field is the given value. *)
Definition error_response (code : Z) (e : json) : Response :=
  {| ok := false; status := code;
     body := ObjectBody {| items := None; error := Some e |} |}.

(** * The rest of the script *)

(** ** Markup escaping *)

(** The double quote character. *)
Definition dquote : ascii := "034"%char.

(** [s.replaceAll(c, r)] for a one-character pattern [c] and a replacement
    [r] without [$]: every occurrence, from left to right. *)
Fixpoint replaceAll_char (c : ascii) (r : string) (s : string) : string :=
  match s with
  | EmptyString => EmptyString
  | String d rest =>
      if Ascii.eqb d c then String.append r (replaceAll_char c r rest)
      else String d (replaceAll_char c r rest)
  end.

(** [escapeHtml(str)]: [String(str ?? "")], then the five replacements in
    the order of the source. *)
Definition escapeHtml (str : option string) : string :=
  replaceAll_char "'" "&#039;"
    (replaceAll_char dquote "&quot;"
       (replaceAll_char ">" "&gt;"
          (replaceAll_char "<" "&lt;"
             (replaceAll_char "&" "&amp;" (default "" str))))).

(** What the five replacements make of one character. *)
Definition entity (c : ascii) : string :=
  if Ascii.eqb c "&" then "&amp;"
  else if Ascii.eqb c "<" then "&lt;"
  else if Ascii.eqb c ">" then "&gt;"
  else if Ascii.eqb c dquote then "&quot;"
  else if Ascii.eqb c "'" then "&#039;"
  else String c "".

(** The characters of a string. *)
Fixpoint chars (s : string) : list ascii :=
  match s with
  | EmptyString => []
  | String c rest => c :: chars rest
  end.

(** The five characters that [escapeHtml] replaces. *)
Definition is_markup_char (c : ascii) : bool :=
  Ascii.eqb c "&" || Ascii.eqb c "<" || Ascii.eqb c ">"
  || Ascii.eqb c dquote || Ascii.eqb c "'".

(** Reading the five entities back, as a browser does when it parses the
    escaped text. *)
Fixpoint unescapeHtml (s : string) : string :=
  match s with
  | EmptyString => EmptyString
  | String c rest =>
      let rest' := unescapeHtml rest in
      if Ascii.eqb c "&" then
        match rest' with
        | String "a" (String "m" (String "p" (String ";" t))) => String "&" t
        | String "l" (String "t" (String ";" t)) => String "<" t
        | String "g" (String "t" (String ";" t)) => String ">" t
        | String "q" (String "u" (String "o" (String "t" (String ";" t)))) =>
            String dquote t
        | String "#" (String "0" (String "3" (String "9" (String ";" t)))) =>
            String "'" t
        | _ => String c rest'
        end
      else String c rest'
  end.

(** ** Theme (light default) *)

(** The theme button, when the page has one. *)
Record ThemeButton := {
  btn_textContent : string;
  btn_title : string
}.

(** What the theme functions read and write: the [THEME_KEY] slot of
    [localStorage], the [data-theme] attribute of the document element,
    and the button. *)
Record ThemePage := {
  theme_slot : option string;
  data_theme : option string;
  themeBtn : option ThemeButton
}.

Definition updateThemeButton (theme : string) (pg : ThemePage) : ThemePage :=
  match themeBtn pg with
  | None => pg
  | Some _ =>
      {| theme_slot := theme_slot pg;
         data_theme := data_theme pg;
         themeBtn :=
           Some {| btn_textContent :=
                     if String.eqb theme "dark" then "Dark" else "Light";
                   btn_title :=
                     if String.eqb theme "dark" then "Switch to Light"
                     else "Switch to Dark" |} |}
  end.

Definition setAttribute_theme (theme : string) (pg : ThemePage) : ThemePage :=
  {| theme_slot := theme_slot pg; data_theme := Some theme;
     themeBtn := themeBtn pg |}.

Definition initTheme (pg : ThemePage) : ThemePage :=
  let theme :=
    match theme_slot pg with
    | Some saved =>
        if String.eqb saved "dark" || String.eqb saved "light" then saved
        else "light"
    | None => "light"
    end in
  updateThemeButton theme (setAttribute_theme theme pg).

Definition toggleTheme (pg : ThemePage) : ThemePage :=
  let cur :=
    match data_theme pg with
    | Some a => if String.eqb a "" then "light" else a
    | None => "light"
    end in
  let next := if String.eqb cur "dark" then "light" else "dark" in
  let pg1 := setAttribute_theme next pg in
  let pg2 := {| theme_slot := Some next; data_theme := data_theme pg1;
                themeBtn := themeBtn pg1 |} in
  updateThemeButton next pg2.

(** A page load: the attribute and the button are those of the markup
    again, the storage slot is what was left there. *)
Definition reload_page (markup : ThemePage) (pg : ThemePage) : ThemePage :=
  {| theme_slot := theme_slot pg; data_theme := data_theme markup;
     themeBtn := themeBtn markup |}.

(** The theme a page shows. *)
Definition is_theme (a : option string) : Prop :=
  a = Some "light" ∨ a = Some "dark".

(** ** Select options *)

(** Locale-dependent browser functions: [a.localeCompare(b)] and
    [new Date(iso).toLocaleDateString(undefined, {month, day})]. *)
Class Locale := {
  localeCompare : string → string → Z;
  toLocaleDateString : string → string
}.

(** [Array.from(new Set(arr))]: the first occurrence of each element, in
    order. *)
Fixpoint new_Set (arr : list string) : list string :=
  match arr with
  | [] => []
  | x :: rest => x :: List.filter (λ y, negb (String.eqb y x)) (new_Set rest)
  end.

(** [arr.sort(cmp)]: the sort is stable, so for a consistent comparator the
    result is the one of stable insertion. *)
Fixpoint sort_insert (cmp : string → string → Z) (x : string) (l : list string)
  : list string :=
  match l with
  | [] => [x]
  | y :: rest =>
      if cmp x y <=? 0 then x :: y :: rest
      else y :: sort_insert cmp x rest
  end.

Definition Array_sort (cmp : string → string → Z) (arr : list string) : list string :=
  foldr (sort_insert cmp) [] arr.

Section Options.
Context {env : Platform} {loc : Locale}.

Definition uniqSorted (arr : list string) : list string :=
  Array_sort localeCompare (new_Set arr).

(** [.filter(Boolean)] on strings that may be missing. *)
Definition filter_Boolean (arr : list (option string)) : list string :=
  omap (λ v, match v with
             | Some s => if String.eqb s "" then None else Some s
             | None => None
             end) arr.

(** [it.feed?.title] *)
Definition feed_title_of (it : Item) : option string :=
  match item_feed it with
  | Some f => feed_title f
  | None => None
  end.

(** The two option lists that [buildFilters] writes under "All Sources"
    and "All Topics". *)
Definition buildFilters (its : list Item) : list string * list string :=
  let sources := uniqSorted (filter_Boolean (map feed_title_of its)) in
  let topics :=
    uniqSorted
      (filter_Boolean
         (map Some (flat_map (λ it, default [] (item_tags it)) its))) in
  (sources, topics).

(** ** Cards *)

Definition fmtDate (iso : option string) : string :=
  match iso with
  | None => ""
  | Some s => if String.eqb s "" then "" else toLocaleDateString s
  end.

(** [a || b] on strings. *)
Definition or_else (a b : string) : string :=
  if String.eqb a "" then b else a.

(** The constants that [renderItem] computes before it fills the card
    template. *)
Record Card := {
  card_id : string;
  card_title : string;
  card_url : string;
  card_feedTitle : string;
  card_domain : string;
  card_when : string;
  card_tags : list string;
  card_isRead : bool;
  card_isStar : bool
}.

Definition renderItem (sto : Store) (it : Item) : Card :=
  let id := id_of it in
  let url := or_else (default "" (item_url it)) "#" in
  {| card_id := id;
     card_title := escapeHtml (Some (default "" (item_title it)));
     card_url := url;
     card_feedTitle :=
       escapeHtml
         (Some (or_else (or_else (default "" (feed_title_of it)) (hostFromUrl url))
                        "Source"));
     card_domain := escapeHtml (Some (hostFromUrl url));
     card_when := fmtDate (item_published_at it);
     card_tags := match item_tags it with
                  | Some ts => slice ts 0 3
                  | None => []
                  end;
     card_isRead := reads_truthy (read sto) id;
     card_isStar := reads_truthy (star sto) id |}.

(** The link of a card, in words: the url of the item, and "#" for an item
    without one. *)
Definition link_of (it : Item) : string :=
  match item_url it with
  | Some u => if bool_decide (u = "") then "#" else u
  | None => "#"
  end.

(** The source label of a card, in words: the feed title; for an item
    without one the host of its link; and the word "Source" when there is
    no host either. *)
Definition label_of (it : Item) : string :=
  let host := hostFromUrl (link_of it) in
  let fallback := if bool_decide (host = "") then "Source" else host in
  match feed_title_of it with
  | Some t => if bool_decide (t = "") then fallback else t
  | None => fallback
  end.

(** The cards of a view. *)
Definition cards_of (sto : Store) (v : View) : list Card :=
  match content v with
  | Cards shown => map (renderItem sto) shown
  | _ => []
  end.

End Options.

(** A comparator for plain ASCII text and a date formatter that shows the
    text as it is. *)
Definition ascii_compare (a b : string) : Z :=
  if String.eqb a b then 0
  else if String.leb a b then -1 else 1.

#[export] Instance ascii_locale : Locale := {|
  localeCompare := ascii_compare;
  toLocaleDateString := λ s, s
|}.

(** [a] is not after [b] for the comparator. *)
Definition not_after (cmp : string → string → Z) (a b : string) : Prop :=
  cmp a b ≤ 0.

(** ** Events that the rendered page offers *)

(** A pagination click on a bar: the button is one of the bar, the handler
    holds the bar's page count, and a disabled button does not fire. *)
Definition offered_by (bar : Pagination) (btn : PageBtn) : Prop :=
  match btn with
  | BtnPrev => prev_disabled bar = false
  | BtnNext => next_disabled bar = false
  | BtnNum k => k ∈ numbered bar
  end.

(** Events whose pagination clicks carry a positive page and page count,
    as every bar written by [render] does. *)
Definition plausible (e : Event) : Prop :=
  match e with
  | PageClick btn totalPages =>
      1 ≤ totalPages ∧ match btn with BtnNum k => 1 ≤ k | _ => True end
  | _ => True
  end.


(** The kinds of events. *)
Definition is_card_click (e : Event) : bool :=
  match e with
  | MiniClick _ _ | HeadlineClick _ => true
  | _ => false
  end.

Definition is_fetch (e : Event) : bool :=
  match e with
  | FetchSettled _ _ => true
  | _ => false
  end.

Example ascii_toLowerCase_ex : ascii_toLowerCase "Reuters AP" = "reuters ap".
Proof. reflexivity. Qed.

Example ascii_trim_ex : ascii_trim "  rate  cut  " = "rate  cut".
Proof. reflexivity. Qed.

Example hostFromUrl_ex :
  hostFromUrl "https://www.Example.com:8080/a?b#c" = "example.com"
  ∧ hostFromUrl "" = "".
Proof. split; reflexivity. Qed.

(** * Property reads and writes on the objects of the store *)

Lemma eqb_false_iff (a b : string) : String.eqb a b = false ↔ a ≠ b.
Proof. by rewrite <- not_true_iff_false, String.eqb_eq. Qed.


Lemma ordinary_id_not_inherited (k : string) :
  ordinary_id k → Object_prototype_has k = false.
Proof. intros Hk. by apply bool_decide_eq_false_2. Qed.

Section ObjectLemmas.
Context {env : Platform}.


(** A write to [k] leaves the other own properties of a plain object. *)
Lemma own_value_assign_ne (o : jsobj) (k k' : string) (b : bool) :
  is_plain o → k' ≠ k → own_value (assign o k b) k' = own_value o k'.
Proof.
  destruct o as [own|]; [|done]. intros _ Hne. cbn [assign].
  destruct (_ || _); [|done]. cbn [own_value]. by rewrite lookup_insert_ne.
Qed.

(** A write to [k] lands unless [k] is the inherited [__proto__]. *)
Lemma own_value_assign (o : jsobj) (k : string) (b : bool) :
  is_plain o → k ≠ "__proto__" ∨ is_Some (own_value o k) →
  own_value (assign o k b) k = Some (JBool b).
Proof.
  destruct o as [own|]; [|done]. intros _ Hw. cbn [assign own_value] in *.
  destruct Hw as [Hk|Hown].
  - rewrite (proj2 (eqb_false_iff k "__proto__")) by done.
    rewrite orb_true_r. cbn [own_value]. apply lookup_insert_eq.
  - rewrite bool_decide_eq_true_2 by done. cbn [orb own_value].
    apply lookup_insert_eq.
Qed.

Lemma inherits_assign (o : jsobj) (k k' : string) (b : bool) :
  inherits (assign o k b) k' = inherits o k'.
Proof.
  destruct o as [own|elems own]; cbn [assign].
  - by destruct (_ || _).
  - destruct (String.eqb k "length"); [done|].
    destruct (array_index k); [done|]. by destruct (_ || _).
Qed.

Lemma reads_truthy_assign_ne (o : jsobj) (k k' : string) (b : bool) :
  is_plain o → k' ≠ k → reads_truthy (assign o k b) k' = reads_truthy o k'.
Proof.
  intros Ho Hne. unfold reads_truthy.
  by rewrite own_value_assign_ne, inherits_assign.
Qed.

(** A write to [__proto__] that finds no own property of that name
    changes nothing. *)
Lemma assign_proto_ignored (own : gmap string json) (b : bool) :
  own !! "__proto__" = None →
  assign (PlainObject own) "__proto__" b = PlainObject own.
Proof.
  intros Hown. cbn [assign]. rewrite Hown.
  by rewrite bool_decide_eq_false_2 by (by intros [? ?]).
Qed.

(** After [o[k] = true] the read of [k] is truthy: the own property when
    the write landed, the inherited [__proto__] when it did not. *)
Lemma reads_truthy_assign_true (o : jsobj) (k : string) :
  is_plain o → reads_truthy (assign o k true) k = true.
Proof.
  intros Ho. destruct (decide (k = "__proto__")) as [->|Hk].
  - destruct (own_value o "__proto__") as [v|] eqn:Hown.
    + unfold reads_truthy. by rewrite own_value_assign by eauto.
    + destruct o as [own|]; [|done]. cbn [own_value] in Hown.
      rewrite assign_proto_ignored by done.
      unfold reads_truthy. cbn [own_value]. by rewrite Hown.
  - unfold reads_truthy. by rewrite own_value_assign by eauto.
Qed.

(** For an id that [Object.prototype] has no member of, the read of a
    plain object is the flag of the entry. *)
Lemma reads_truthy_flag (o : jsobj) (k : string) :
  is_plain o → ordinary_id k → reads_truthy o k = flag o k.
Proof.
  destruct o as [own|]; [|done]. intros _ Hk. unfold reads_truthy, flag.
  destruct (own_value _ _); [done|]. cbn [inherits truthy].
  by apply ordinary_id_not_inherited.
Qed.

(** An entry that is there is what a read finds. *)
Lemma reads_truthy_own (o : jsobj) (k : string) :
  is_Some (own_value o k) → reads_truthy o k = flag o k.
Proof. intros [v Hv]. unfold reads_truthy, flag. by rewrite Hv. Qed.


Lemma assign_comm (o : jsobj) (k1 k2 : string) (b1 b2 : bool) :
  is_plain o → k1 ≠ k2 →
  assign (assign o k1 b1) k2 b2 = assign (assign o k2 b2) k1 b1.
Proof.
  destruct o as [own|]; [|done]. intros _ Hne. cbn [assign].
  destruct (bool_decide (is_Some (own !! k1)) || negb (String.eqb k1 "__proto__"))
    eqn:Hw1;
  destruct (bool_decide (is_Some (own !! k2)) || negb (String.eqb k2 "__proto__"))
    eqn:Hw2; cbn [assign]; rewrite ?lookup_insert_ne by done;
    rewrite ?Hw1, ?Hw2; try reflexivity.
  by rewrite (insert_insert_ne _ k1 k2) by done.
Qed.

(** What a toggle does to the two mappings. *)
Lemma toggle_flags_read (id : string) (s : Store) :
  toggle_flags "read" id s
  = set_read id (negb (reads_truthy (read s) id)) s.
Proof. reflexivity. Qed.

Lemma toggle_flags_star (id : string) (s : Store) :
  toggle_flags "star" id s
  = set_star id (negb (reads_truthy (star s) id)) s.
Proof. reflexivity. Qed.




End ObjectLemmas.

Lemma plain_store_empty : plain_store empty_store.
Proof. by split. Qed.

(** * The paginator *)

(** ** Arithmetic of the page count *)

Lemma ceil_div_pos (n p : Z) : 0 < p → ceil_div n p = - ((- n) / p).
Proof.
  intros Hp. destruct p as [|pp|pp]; try lia.
  unfold ceil_div, Qceiling, Qfloor, Qdiv, Qinv, Qmult, Qopp, inject_Z; simpl.
  rewrite Z.mul_1_r. reflexivity.
Qed.

(** [ceil_div n p] is the least [k] with [n <= k * p]. *)
Lemma ceil_div_bounds (n p : Z) :
  0 < p → (ceil_div n p - 1) * p < n ≤ ceil_div n p * p.
Proof.
  intros Hp. rewrite ceil_div_pos by done.
  pose proof (Z.div_mod (- n) p ltac:(lia)) as Hdm.
  pose proof (Z.mod_pos_bound (- n) p Hp) as Hb.
  nia.
Qed.

Lemma ceil_div_0 (p : Z) : 0 < p → ceil_div 0 p = 0.
Proof. intros Hp. rewrite ceil_div_pos by done. simpl. by rewrite Z.div_0_l by lia. Qed.

Lemma ceil_div_ge_1 (n p : Z) : 0 < p → 0 < n → 1 ≤ ceil_div n p.
Proof. intros Hp Hn. pose proof (ceil_div_bounds n p Hp). nia. Qed.

(** ** Slicing *)

Lemma slice_window {A} (l : list A) (a b : Z) :
  0 ≤ a → 0 ≤ b →
  slice l a (a + b) = take (Z.to_nat b) (drop (Z.to_nat a) l).
Proof.
  intros Ha Hb. unfold slice.
  destruct (Z.ltb_spec a 0) as [?|_]; [lia|].
  destruct (Z.ltb_spec (a + b) 0) as [?|_]; [lia|].
  set (len := Z.of_nat (length l)).
  destruct (Z.le_gt_cases a len) as [Hal|Hal].
  - rewrite (Z.min_l a len) by lia.
    destruct (Z.le_gt_cases (a + b) len) as [Hbl|Hbl].
    + rewrite Z.min_l by lia. f_equal. lia.
    + rewrite Z.min_r by lia.
      rewrite (take_ge _ (Z.to_nat b)); [apply take_ge|];
        rewrite length_drop; subst len; lia.
  - rewrite (Z.min_r a len) by lia.
    rewrite !drop_ge by (subst len; lia).
    by rewrite !take_nil.
Qed.

Lemma items_from_to_window {A} (l : list A) (a n : nat) :
  items_from_to l a (a + n) = take n (drop a l).
Proof. unfold items_from_to. by rewrite take_drop_commute. Qed.

(** Consecutive windows of width [p] rebuild the prefix they cover. *)
Lemma windows_concat {A} (l : list A) (p n : nat) :
  concat (map (λ i, take p (drop (i * p) l)) (seq 0 n)) = take (n * p) l.
Proof.
  induction n as [|n IH]; [done|].
  replace (S n * p)%nat with (n * p + p)%nat by lia.
  rewrite seq_S, map_app, concat_app, IH.
  cbn [map concat Nat.add]. by rewrite app_nil_r, take_take_drop.
Qed.

Lemma length_concat_sum {A} (ls : list (list A)) :
  length (concat ls) = sum_list (map length ls).
Proof.
  induction ls as [|l ls IH]; [done|].
  cbn [concat map]. by rewrite length_app, IH.
Qed.

Section Paginator.
Context {cfg : Config}.

Lemma clampPage_clamp (p totalPages : Z) :
  1 ≤ totalPages → clampPage p totalPages = clamp p 1 totalPages.
Proof.
  intros H. unfold clampPage, clamp.
  destruct (Z.leb_spec totalPages 0); [lia|done].
Qed.

Lemma clampPage_range (p totalPages : Z) :
  1 ≤ totalPages → 1 ≤ clampPage p totalPages ≤ totalPages.
Proof. intros H. rewrite clampPage_clamp by done. unfold clamp. lia. Qed.

Lemma clampPage_id (p totalPages : Z) :
  1 ≤ p ≤ totalPages → clampPage p totalPages = p.
Proof. intros H. rewrite clampPage_clamp by lia. unfold clamp. lia. Qed.

Lemma getPaged_totalPages (st : State) (its : list Item) :
  (getPaged st its).2.2 = Z.max 1 (ceil_div (Z.of_nat (length its)) PAGE_SIZE).
Proof. reflexivity. Qed.

Lemma getPaged_page (st : State) (its : list Item) :
  page (getPaged st its).1 = clampPage (page st) (getPaged st its).2.2.
Proof. reflexivity. Qed.

Lemma getPaged_pageItems (st : State) (its : list Item) :
  0 < PAGE_SIZE →
  (getPaged st its).2.1
  = take (Z.to_nat PAGE_SIZE)
      (drop (Z.to_nat ((page (getPaged st its).1 - 1) * PAGE_SIZE)) its).
Proof.
  intros HP. pose proof (clampPage_range (page st) (getPaged st its).2.2) as Hr.
  rewrite <- getPaged_page in Hr. rewrite getPaged_totalPages in Hr.
  specialize (Hr ltac:(lia)).
  unfold getPaged at 1. cbn [fst snd].
  apply slice_window; nia.
Qed.

(** The last page starts inside the list. *)
Lemma page_start_lt (n c : Z) :
  0 < PAGE_SIZE → 0 < n →
  1 ≤ c ≤ Z.max 1 (ceil_div n PAGE_SIZE) →
  0 ≤ (c - 1) * PAGE_SIZE < n.
Proof.
  intros HP Hn Hc. pose proof (ceil_div_bounds n PAGE_SIZE HP).
  pose proof (ceil_div_ge_1 n PAGE_SIZE HP Hn). nia.
Qed.

End Paginator.

(** C2. For a list of [N] items, a page size [P > 0] and any stored page
    number, [getPaged] returns [totalPages = max(1, ceil(N/P))], leaves
    [currentPage = clamp(requestedPage, 1, totalPages)] in the state, and
    returns [items[(currentPage-1)*P : currentPage*P]]; the page is empty
    only for the empty list, and then [totalPages = 1] and
    [currentPage = 1]. *)
Theorem getPaged_spec `{cfg : Config} (st : State) (its : list Item) :
  0 < PAGE_SIZE →
  let N := Z.of_nat (length its) in
  let totalPages := (getPaged st its).2.2 in
  let currentPage := page (getPaged st its).1 in
  let pageItems := (getPaged st its).2.1 in
  totalPages = Z.max 1 (ceil_div N PAGE_SIZE)
  ∧ (ceil_div N PAGE_SIZE - 1) * PAGE_SIZE < N ≤ ceil_div N PAGE_SIZE * PAGE_SIZE
  ∧ currentPage = clamp (page st) 1 totalPages
  ∧ 1 ≤ currentPage ≤ totalPages
  ∧ pageItems = items_from_to its (Z.to_nat ((currentPage - 1) * PAGE_SIZE))
                                  (Z.to_nat (currentPage * PAGE_SIZE))
  ∧ (pageItems = [] → its = [])
  ∧ (its = [] → totalPages = 1 ∧ currentPage = 1 ∧ pageItems = []).
Proof.
  intros HP N totalPages currentPage pageItems.
  assert (Htp : totalPages = Z.max 1 (ceil_div N PAGE_SIZE)) by reflexivity.
  assert (Hcl : currentPage = clamp (page st) 1 totalPages).
  { subst currentPage. rewrite getPaged_page. apply clampPage_clamp.
    fold totalPages. lia. }
  assert (Hrg : 1 ≤ currentPage ≤ totalPages).
  { rewrite Hcl. unfold clamp. lia. }
  assert (Hit : pageItems
                = take (Z.to_nat PAGE_SIZE)
                    (drop (Z.to_nat ((currentPage - 1) * PAGE_SIZE)) its)).
  { apply getPaged_pageItems, HP. }
  split; [exact Htp|]. split; [apply ceil_div_bounds, HP|].
  split; [exact Hcl|]. split; [exact Hrg|].
  split; [|split].
  - rewrite Hit, <- items_from_to_window. f_equal. nia.
  - intros Hnil. destruct its as [|x its']; [done|exfalso].
    assert (0 < N) by (subst N; simpl; lia).
    pose proof (page_start_lt N currentPage HP ltac:(done)
                  ltac:(rewrite <- Htp; exact Hrg)) as Hst.
    apply (f_equal length) in Hnil. rewrite Hit in Hnil.
    rewrite length_take, length_drop in Hnil. change (length []) with 0%nat in Hnil.
    subst N. lia.
  - intros ->. subst N. simpl in *.
    rewrite ceil_div_0 in Htp by done.
    assert (totalPages = 1) as Ht1 by lia.
    split; [done|]. split; [lia|].
    rewrite Hit. by rewrite drop_nil, take_nil.
Qed.

(** The scenario of the specification: 120 items in pages of 50, page 5
    requested. *)
Lemma getPaged_spec_witness :
  let its := replicate 120 (Build_Item None None None None None None) in
  let st := set_page 5 initial_state in
  0 < PAGE_SIZE
  ∧ (getPaged st its).2.2 = 3
  ∧ page (getPaged st its).1 = 3
  ∧ (getPaged st its).2.1 = items_from_to its 100 150
  ∧ length (getPaged st its).2.1 = 20%nat.
Proof.
  intros its st.
  assert (HP : 0 < PAGE_SIZE) by (vm_compute; reflexivity).
  pose proof (getPaged_spec st its HP) as (Htp & _ & Hc & _ & Hit & _).
  split; [exact HP|].
  split; [rewrite Htp; vm_compute; reflexivity|].
  split; [rewrite Hc; vm_compute; reflexivity|].
  split; [rewrite Hit; vm_compute; reflexivity|].
  rewrite Hit. vm_compute. reflexivity.
Defined.

(** C8. For a list of [N] items and a page size [P > 0], the pages
    numbered 1 to [totalPages] partition the list: put end to end they are
    the list, their lengths add up to [N], and
    [totalPages = max(1, ceil(N/P))]. *)
Theorem pages_partition `{cfg : Config} (st : State) (its : list Item) :
  0 < PAGE_SIZE →
  let N := length its in
  let totalPages := (getPaged st its).2.2 in
  totalPages = Z.max 1 (ceil_div (Z.of_nat N) PAGE_SIZE)
  ∧ concat (map (page_of st its) (seqZ 1 totalPages)) = its
  ∧ sum_list (map (λ k, length (page_of st its k)) (seqZ 1 totalPages)) = N.
Proof.
  intros HP N totalPages.
  assert (Htp : totalPages = Z.max 1 (ceil_div (Z.of_nat N) PAGE_SIZE))
    by reflexivity.
  assert (Hcat : concat (map (page_of st its) (seqZ 1 totalPages)) = its).
  { set (p := Z.to_nat PAGE_SIZE). set (n := Z.to_nat totalPages).
    assert (Hpages : map (page_of st its) (seqZ 1 totalPages)
                     = map (λ i, take p (drop (i * p) its)) (seq 0 n)).
    { unfold seqZ. fold n. rewrite <- list_fmap_compose.
      apply map_ext_in. intros i Hi%in_seq. unfold compose, page_of.
      rewrite getPaged_pageItems by done.
      rewrite getPaged_page, getPaged_totalPages. cbn [page set_page].
      fold N. rewrite <- Htp.
      rewrite clampPage_id by lia.
      fold p. do 2 f_equal. subst p. nia. }
    rewrite Hpages, windows_concat. apply take_ge.
    pose proof (ceil_div_bounds (Z.of_nat N) PAGE_SIZE HP).
    subst n p N. nia. }
  split; [exact Htp|]. split; [exact Hcat|].
  subst N. apply (f_equal length) in Hcat. rewrite <- Hcat.
  rewrite length_concat_sum, map_map. reflexivity.
Qed.

Lemma pages_partition_witness :
  let its := replicate 120 (Build_Item None None None None None None) in
  0 < PAGE_SIZE
  ∧ (getPaged initial_state its).2.2 = 3
  ∧ sum_list (map (λ k, length (page_of initial_state its k)) (seqZ 1 3)) = 120%nat.
Proof.
  intros its.
  assert (HP : 0 < PAGE_SIZE) by (vm_compute; reflexivity).
  pose proof (pages_partition initial_state its HP) as (Htp & _ & Hsum).
  assert (H3 : (getPaged initial_state its).2.2 = 3)
    by (rewrite Htp; vm_compute; reflexivity).
  rewrite H3 in Hsum.
  split; [exact HP|]. split; [exact H3|]. exact Hsum.
Defined.

(** * The filter engine *)

Lemma append_cons (c : ascii) (a b : string) :
  String.append (String c a) b = String c (String.append a b).
Proof. reflexivity. Qed.

Lemma append_empty (b : string) : String.append "" b = b.
Proof. reflexivity. Qed.

Lemma prefix_spec (p s : string) :
  String.prefix p s = true ↔ ∃ rest, s = String.append p rest.
Proof.
  revert s. induction p as [|c p IH]; intros s.
  - split; [intros _; by exists s|intros _; by destruct s].
  - destruct s as [|d s]; simpl.
    + split; [done|intros [rest Hr]; discriminate].
    + setoid_rewrite append_cons.
      destruct (Ascii.ascii_dec c d) as [->|Hne].
      * rewrite IH. split; intros [rest Hr]; exists rest; congruence.
      * split; [done|]. intros [rest Hr]. congruence.
Qed.

Lemma includes_spec (text needle : string) :
  includes text needle = true ↔ is_substring needle text.
Proof.
  unfold is_substring. induction text as [|c text IH]; cbn [includes].
  - rewrite orb_false_r, prefix_spec. split.
    + intros [rest Hr]. by exists "", rest.
    + intros ([|d before] & after & Hr); [by exists after|discriminate].
  - rewrite orb_true_iff, prefix_spec, IH. split.
    + intros [[rest Hr]|(before & after & Hr)].
      * by exists "", rest.
      * exists (String c before), after. by rewrite append_cons, Hr.
    + intros ([|d before] & after & Hr).
      * left. by exists after.
      * right. exists before, after. rewrite append_cons in Hr. congruence.
Qed.

Lemma includes_empty (text : string) : includes text "" = true.
Proof. apply includes_spec. by exists "", text. Qed.

Lemma filter_sublist {A} (f : A → bool) (l : list A) :
  sublist (List.filter f l) l.
Proof.
  induction l as [|x l IH]; simpl; [constructor|].
  destruct (f x); by constructor.
Qed.

Section Filter.
Context {env : Platform}.

Lemma hay_spaced (it : Item) : hay it = spaced_text it.
Proof.
  unfold hay, spaced_text. f_equal. simpl.
  by destruct (item_tags it).
Qed.

(** The early returns of the callback, as one conjunction. *)
Lemma keep_true (st : State) (sto : Store) (qq : string) (it : Item) :
  keep st sto qq it = true
  ↔ String.eqb (source st) "" || String.eqb (feedTitle it) (source st) = true
    ∧ String.eqb (topic st) ""
      || match item_tags it with
         | Some ts => array_includes ts (topic st)
         | None => false
         end = true
    ∧ negb (hideRead st) || negb (reads_truthy (read sto) (id_of it)) = true
    ∧ negb (starOnly st) || reads_truthy (star sto) (id_of it) = true
    ∧ String.eqb qq "" || includes (hay it) qq = true.
Proof.
  unfold keep.
  destruct (String.eqb (source st) ""), (String.eqb (feedTitle it) (source st)),
    (String.eqb (topic st) ""),
    (match item_tags it with Some ts => array_includes ts (topic st) | None => false end),
    (hideRead st), (reads_truthy (read sto) (id_of it)),
    (starOnly st), (reads_truthy (star sto) (id_of it)),
    (String.eqb qq ""); simpl; intuition congruence.
Qed.

Lemma survives_source_iff (st : State) (it : Item) :
  String.eqb (source st) "" || String.eqb (feedTitle it) (source st) = true
  ↔ survives_source st it.
Proof.
  unfold survives_source. rewrite orb_true_iff, !String.eqb_eq.
  destruct (decide (source st = "")); tauto.
Qed.

Lemma survives_topic_iff (st : State) (it : Item) :
  String.eqb (topic st) ""
  || match item_tags it with
     | Some ts => array_includes ts (topic st)
     | None => false
     end = true
  ↔ survives_topic st it.
Proof.
  unfold survives_topic, array_includes. rewrite orb_true_iff, String.eqb_eq.
  destruct (decide (topic st = "")) as [Ht|Ht]; [tauto|].
  destruct (item_tags it) as [ts|].
  - rewrite bool_decide_eq_true. split.
    + intros [?|Hin] _; [done|]. by exists ts.
    + intros Htop. destruct (Htop Ht) as (ts' & [= <-] & Hin). by right.
  - split; [intros [?|?]; done|].
    intros Htop. by destruct (Htop Ht) as (ts' & ? & _).
Qed.

Lemma survives_hideRead_iff (flagof : jsobj → string → bool)
    (st : State) (sto : Store) (it : Item) :
  negb (hideRead st) || negb (flagof (read sto) (id_of it)) = true
  ↔ survives_hideRead flagof st sto it.
Proof.
  unfold survives_hideRead.
  destruct (hideRead st), (flagof (read sto) (id_of it)); simpl;
    intuition congruence.
Qed.

Lemma survives_starOnly_iff (flagof : jsobj → string → bool)
    (st : State) (sto : Store) (it : Item) :
  negb (starOnly st) || flagof (star sto) (id_of it) = true
  ↔ survives_starOnly flagof st sto it.
Proof.
  unfold survives_starOnly.
  destruct (starOnly st), (flagof (star sto) (id_of it)); simpl;
    intuition congruence.
Qed.

Lemma survives_query_iff (st : State) (it : Item) :
  let qq := toLowerCase (trim (q st)) in
  String.eqb qq "" || includes (hay it) qq = true
  ↔ survives_query spaced_text st it.
Proof.
  intros qq. unfold survives_query. fold qq.
  rewrite orb_true_iff, String.eqb_eq, includes_spec, hay_spaced.
  destruct (decide (qq = "")); tauto.
Qed.

(** The callback keeps exactly the items that survive the five checks,
    the two flags being what a read of the store's objects finds. *)
Lemma keep_passes (st : State) (sto : Store) (it : Item) :
  keep st sto (toLowerCase (trim (q st))) it = true
  ↔ passes reads_truthy spaced_text st sto it.
Proof.
  unfold passes.
  by rewrite keep_true, survives_source_iff, survives_topic_iff,
    survives_hideRead_iff, survives_starOnly_iff, survives_query_iff.
Qed.

Lemma applyFilters_elem (st : State) (sto : Store) (its : list Item) (it : Item) :
  it ∈ applyFilters st sto its
  ↔ it ∈ its ∧ passes reads_truthy spaced_text st sto it.
Proof.
  unfold applyFilters. rewrite !list_elem_of_In, filter_In.
  by rewrite keep_passes.
Qed.

(** On plain objects and for an id that [Object.prototype] has no member
    of, a read finds the entry of the id or nothing. *)
Lemma passes_entries (text : Item → string) (st : State) (sto : Store)
    (it : Item) :
  plain_store sto → ordinary_item it →
  passes reads_truthy text st sto it ↔ passes flag text st sto it.
Proof.
  intros [Hr Hs] Hid. unfold passes, survives_hideRead, survives_starOnly.
  by rewrite !reads_truthy_flag.
Qed.

End Filter.

(** C1, as amended. For every item list, criteria and annotation record
    of two plain mappings, [applyFilters] returns a subsequence of its input
    in the input's order; of the items whose id is not the name of a member
    of [Object.prototype], every one in the output survives the five checks
    and every one of the input missing from the output fails one, where the
    fifth check searches the trimmed, lowercased query in title, source
    label, hostname and space-joined tags joined by single spaces and
    lowercased. *)
Theorem applyFilters_spec `{env : Platform} (st : State) (sto : Store)
    (its : list Item) :
  plain_store sto →
  filter_property ordinary_item spaced_text st sto its.
Proof.
  intros Hplain. unfold filter_property.
  split; [apply filter_sublist|]. split.
  - intros it Hin Hid. apply passes_entries; [done..|].
    by apply applyFilters_elem in Hin as [_ Hp].
  - intros it Hin Hout Hid Hp. apply Hout, applyFilters_elem.
    split; [done|]. by apply passes_entries.
Qed.

(** The scenario of the specification: source "Reuters", hide-read on,
    over A (Reuters, read), B (Reuters, unread) and C (AP). *)
Lemma applyFilters_spec_witness :
  plain_store store_A_read
  ∧ applyFilters reuters_unread store_A_read [item_A; item_B; item_C] = [item_B]
  ∧ filter_property ordinary_item spaced_text reuters_unread store_A_read
      [item_A; item_B; item_C].
Proof.
  assert (Hplain : plain_store store_A_read) by (split; exact I).
  split; [exact Hplain|].
  split; [vm_compute; reflexivity|by apply applyFilters_spec].
Defined.

(** C1, as stated, fails: with the four texts put end to end the query
    "goldmint" occurs in "Gold" followed by "Mint", yet [applyFilters]
    searches "gold mint" and drops the item. *)
Lemma concatenated_text_refuted :
  applyFilters query_goldmint empty_store [item_gold_mint] = []
  ∧ hay item_gold_mint = "gold mint  "
  ∧ concatenated_text item_gold_mint = "goldmint"
  ∧ ordinary_item item_gold_mint
  ∧ ¬ filter_property any_item concatenated_text query_goldmint empty_store
        [item_gold_mint].
Proof.
  split; [vm_compute; reflexivity|]. split; [vm_compute; reflexivity|].
  split; [vm_compute; reflexivity|].
  split; [apply (bool_decide_unpack _); by vm_compute|].
  intros (_ & _ & Hexcl).
  apply (Hexcl item_gold_mint).
  - apply list_elem_of_here.
  - assert (Hout : applyFilters query_goldmint empty_store [item_gold_mint] = [])
      by (vm_compute; reflexivity).
    rewrite Hout. apply not_elem_of_nil.
  - exact I.
  - split; [|split; [|split; [|split]]].
    + intros Hne. by destruct Hne.
    + intros Hne. by destruct Hne.
    + intros Hh. vm_compute in Hh. discriminate Hh.
    + intros Hs. vm_compute in Hs. discriminate Hs.
    + intros _. exists "", "". vm_compute. reflexivity.
Qed.

(** An item whose id is the name of a member of [Object.prototype] is
    taken for read before any entry is made for it: on a first visit, with
    "hide read" on, [applyFilters] drops it. *)
Lemma prototype_named_item_dropped :
  flag (read empty_store) (id_of item_constructor) = false
  ∧ applyFilters hide_read_on empty_store [item_constructor] = []
  ∧ applyFilters initial_state empty_store [item_constructor]
    = [item_constructor].
Proof. split; [reflexivity|]. split; vm_compute; reflexivity. Qed.

(** * The annotation store *)

Lemma object_or_empty_kept (v : option json) :
  ¬ array_field v → object_or_empty v = kept_field v.
Proof.
  intros Hv. destruct v as [[|b|n|s|xs|m]|]; try reflexivity;
    try (unfold object_or_empty, typeof_object; by rewrite andb_false_r).
  destruct Hv. by exists xs.
Qed.

(** [loadStore] on a persisted JSON object. *)
Lemma loadStore_object (m : gmap string json) :
  loadStore (Json (JObj m))
  = {| read := object_or_empty (m !! "read");
       star := object_or_empty (m !! "star") |}.
Proof. reflexivity. Qed.

(** [loadStore] on anything else. *)
Lemma loadStore_no_object (raw : persisted) :
  no_json_object raw → loadStore raw = empty_record.
Proof.
  intros Hraw. destruct raw as [| | |[]]; try reflexivity.
  by destruct (Hraw m).
Qed.

(** What is thrown inside [loadStore] is caught there. *)
Lemma loadStore_catches (raw : persisted) :
  loadStore_try raw = None → loadStore raw = empty_record.
Proof. unfold loadStore. by intros ->. Qed.

Lemma loadStore_array (xs : list json) : loadStore (Json (JArr xs)) = empty_record.
Proof. reflexivity. Qed.

(** C4, as stated, fails: an object whose [read] field maps an id to the
    string "yes" is not a well-shaped record, and [loadStore] returns that
    field as it is. *)
Lemma loadStore_keeps_ill_typed_flags :
  ¬ annotation_record persisted_yes
  ∧ loadStore persisted_yes ≠ empty_record
  ∧ own_value (read (loadStore persisted_yes)) "a" = Some (JStr "yes").
Proof.
  split; [|split].
  - intros (m & r & s & Hraw & Hr & (mr & -> & Hflags) & _).
    injection Hraw as <-.
    rewrite lookup_insert_eq in Hr. injection Hr as <-.
    destruct (Hflags "a" (JStr "yes")) as [b Hb]; [|discriminate Hb].
    apply lookup_insert_eq.
  - intros Heq.
    apply (f_equal (λ r, own_value (read r) "a")) in Heq.
    vm_compute in Heq. discriminate Heq.
  - reflexivity.
Qed.


(** [loadStore] returns plain objects unless a persisted field is an
    array. *)
Lemma loadStore_plain (raw : persisted) :
  (∀ m, raw = Json (JObj m) →
        ¬ array_field (m !! "read") ∧ ¬ array_field (m !! "star")) →
  plain_store (loadStore raw).
Proof.
  intros Hraw. destruct raw as [| | |[| | | | |m]]; try (split; exact I).
  destruct (Hraw m eq_refl) as [Hr Hs].
  rewrite loadStore_object, !object_or_empty_kept by done.
  split; cbn [read star].
  - by destruct (m !! "read") as [[]|].
  - by destruct (m !! "star") as [[]|].
Qed.

(** C4, as amended. [loadStore] never throws: it is a total function, and
    what its [try] block throws gives the empty record. It returns the
    empty record when the persisted value is missing, empty, not JSON, or
    JSON that is not an object; for a JSON object it looks at each of
    [read] and [star] on its own: a field that is a JSON object is kept
    whatever its entries, and [{}] is put in place of a field that is
    missing, [null] or a scalar. *)
Theorem loadStore_spec (raw : persisted) :
  (loadStore_try raw = None → loadStore raw = empty_record)
  ∧ (no_json_object raw → loadStore raw = empty_record)
  ∧ (∀ m, raw = Json (JObj m) →
       (¬ array_field (m !! "read") →
        read (loadStore raw) = kept_field (m !! "read"))
       ∧ (¬ array_field (m !! "star") →
          star (loadStore raw) = kept_field (m !! "star"))).
Proof.
  split; [|split].
  - (* the catch *) unfold loadStore. by intros ->.
  - intros Hraw. destruct raw as [| | |v].
    + (* no entry: the early return *) reflexivity.
    + (* empty text: the early return *) reflexivity.
    + (* JSON.parse throws: the catch *) reflexivity.
    + destruct v as [|b|n|s|xs|m].
      * (* null: the property read throws, the catch *) reflexivity.
      * (* a boolean has no such fields *) reflexivity.
      * (* a number has no such fields *) reflexivity.
      * (* a string has no such fields *) reflexivity.
      * (* an array has no such fields *) reflexivity.
      * by destruct (Hraw m).
  - intros m ->. rewrite loadStore_object. cbn [read star].
    split; intros Hfield.
    + (* the read field *)
      destruct (m !! "read") as [[|b|n|s|xs|mr]|].
      * (* null is falsy *) reflexivity.
      * (* a boolean is no object *) cbn. by rewrite andb_false_r.
      * (* a number is no object *) cbn. by rewrite andb_false_r.
      * (* a string is no object *) cbn. by rewrite andb_false_r.
      * destruct Hfield. by exists xs.
      * (* an object is kept *) reflexivity.
      * (* a missing field is falsy *) reflexivity.
    + (* the star field *)
      destruct (m !! "star") as [[|b|n|s|xs|ms]|].
      * reflexivity.
      * cbn. by rewrite andb_false_r.
      * cbn. by rewrite andb_false_r.
      * cbn. by rewrite andb_false_r.
      * destruct Hfield. by exists xs.
      * reflexivity.
      * reflexivity.
Qed.

(** A JSON array where an object is expected gives the empty record; an
    object with an ill-typed [read] field keeps its [star] field. *)
Lemma loadStore_spec_witness :
  let m := <["read" := JStr "none"]> (∅ : gmap string json) in
  no_json_object (Json (JArr [JBool true]))
  ∧ loadStore (Json (JArr [JBool true])) = empty_record
  ∧ ¬ array_field (m !! "read")
  ∧ read (loadStore (Json (JObj m))) = PlainObject ∅.
Proof.
  intros m.
  assert (Hraw : no_json_object (Json (JArr [JBool true])))
    by (intros m' Hm; discriminate Hm).
  assert (Hfield : ¬ array_field (m !! "read"))
    by (intros [xs Hxs]; vm_compute in Hxs; discriminate Hxs).
  split; [exact Hraw|].
  split; [exact (proj1 (proj2 (loadStore_spec _)) Hraw)|].
  split; [exact Hfield|].
  exact (proj1 (proj2 (proj2 (loadStore_spec (Json (JObj m)))) m eq_refl) Hfield).
Defined.

(** An array passes the [typeof] test of [loadStore], which guards against
    [null] only. On such a store a toggle of an id that is no array index
    is made in memory and written out as nothing: the next page load has
    lost it. *)
Lemma loadStore_keeps_array_field :
  read (loadStore persisted_array) = ArrayObject [] ∅
  ∧ (let w1 := (onMiniClick "read" "a" array_world).1 in
     reads_truthy (read (store w1)) "a" = true
     ∧ slot w1 = persisted_array
     ∧ reads_truthy (read (loadStore (slot w1))) "a" = false).
Proof. split; [reflexivity|]. vm_compute. repeat split; reflexivity. Qed.

Example boot_first_visit : boot NoEntry = fresh_world.
Proof. reflexivity. Qed.

Example boot_array :
  store (boot (Json (JArr [JBool true]))) = empty_store.
Proof. reflexivity. Qed.

(** * Rendering *)

Section Render.
Context {env : Platform} {cfg : Config}.

(** [render] writes nothing of the state but the page number. *)
Lemma render_state (sto : Store) (st : State) :
  (render sto st).1 = set_page (page (render sto st).1) st.
Proof.
  unfold render. destruct st as [? ? ? ? ? [d|] ? ?]; cbn; [|done].
  by destruct (_ =? 0).
Qed.

Lemma filtered_of_set_page (sto : Store) (st : State) (p : Z) :
  filtered_of sto (set_page p st) = filtered_of sto st.
Proof. reflexivity. Qed.

Lemma filtered_of_render (sto : Store) (st : State) :
  filtered_of sto (render sto st).1 = filtered_of sto st.
Proof. by rewrite render_state, filtered_of_set_page. Qed.

(** The page number after a render: left alone while there is no dataset
    or no item matches, clamped otherwise. *)
Lemma render_page (sto : Store) (st : State) :
  page (render sto st).1
  = if bool_decide (filtered_of sto st = [])
    then page st
    else clampPage (page st) (totalPages_of (length (filtered_of sto st))).
Proof.
  unfold render, filtered_of. destruct (data st) as [d|]; [|done].
  destruct (applyFilters st sto (allItems d)) as [|it its] eqn:Hf; [done|].
  rewrite bool_decide_eq_false_2 by done. reflexivity.
Qed.

Lemma render_page_no_match (sto : Store) (st : State) :
  filtered_of sto st = [] → page (render sto st).1 = page st.
Proof. intros Hf. by rewrite render_page, bool_decide_eq_true_2. Qed.

Lemma totalPages_of_ge_1 (n : nat) : 1 ≤ totalPages_of n.
Proof. unfold totalPages_of. lia. Qed.

(** On the path that shows cards the page number ends within range. *)
Lemma render_page_match (sto : Store) (st : State) :
  filtered_of sto st ≠ [] →
  page (render sto st).1
  = clamp (page st) 1 (totalPages_of (length (filtered_of sto st)))
  ∧ 1 ≤ page (render sto st).1 ≤ totalPages_of (length (filtered_of sto st)).
Proof.
  intros Hf. rewrite render_page, bool_decide_eq_false_2 by done.
  pose proof (totalPages_of_ge_1 (length (filtered_of sto st))).
  split; [by apply clampPage_clamp|by apply clampPage_range].
Qed.

(** A page number already in range survives a render. *)
Lemma render_page_in_range (sto : Store) (st : State) :
  1 ≤ page st ≤ totalPages_of (length (filtered_of sto st)) →
  page (render sto st).1 = page st.
Proof.
  intros Hr. rewrite render_page. case_bool_decide; [done|].
  by apply clampPage_id.
Qed.

Lemma render_page_1 (sto : Store) (st : State) :
  page st = 1 → page (render sto st).1 = 1.
Proof.
  intros H1. rewrite render_page_in_range; [done|].
  pose proof (totalPages_of_ge_1 (length (filtered_of sto st))). lia.
Qed.

(** The page number after a render, as [rendered_page] has it. *)
Lemma render_rendered_page (sto : Store) (st : State) :
  page (render sto st).1
  = rendered_page sto (render sto st).1 (page st).
Proof.
  unfold rendered_page. rewrite filtered_of_render, render_page.
  case_bool_decide as Hf; [done|].
  apply clampPage_clamp, totalPages_of_ge_1.
Qed.

Lemma render_same_criteria (sto : Store) (st : State) :
  same_criteria (render sto st).1 st ∧ data (render sto st).1 = data st.
Proof. rewrite render_state. by repeat split. Qed.

(** ** The card buttons *)

Lemma onMiniClick_empty_id (action : string) (w : World) :
  onMiniClick action "" w = (w, None).
Proof. reflexivity. Qed.

Lemma onMiniClick_world (action id : string) (w : World) :
  id ≠ "" →
  (onMiniClick action id w).1
  = let s := toggle_flags action id (store w) in
    {| state := (render s (state w)).1; store := s;
       slot := Json (json_of_store s) |}.
Proof.
  intros Hid. unfold onMiniClick.
  rewrite (proj2 (eqb_false_iff id "")) by done.
  unfold render_world, saveStore, with_store, with_state. cbn [state store slot].
  by destruct (render _ _).
Qed.

Lemma onHeadlineClick_world (id : string) (w : World) :
  id ≠ "" →
  (onHeadlineClick id w).1
  = let s := set_read id true (store w) in
    {| state := state w; store := s; slot := Json (json_of_store s) |}.
Proof.
  intros Hid. unfold onHeadlineClick.
  by rewrite (proj2 (eqb_false_iff id "")) by done.
Qed.




(** What a toggle leaves of the two mappings. *)
Lemma toggle_read_others (id : string) (s : Store) :
  is_plain (read s) →
  (∀ id', id' ≠ id →
     own_value (read (toggle_flags "read" id s)) id' = own_value (read s) id')
  ∧ star (toggle_flags "read" id s) = star s.
Proof.
  intros Hs. rewrite toggle_flags_read. cbn [read star set_read].
  split; [|done]. intros id' Hne. by apply own_value_assign_ne.
Qed.

Lemma toggle_star_others (id : string) (s : Store) :
  is_plain (star s) →
  (∀ id', id' ≠ id →
     own_value (star (toggle_flags "star" id s)) id' = own_value (star s) id')
  ∧ read (toggle_flags "star" id s) = read s.
Proof.
  intros Hs. rewrite toggle_flags_star. cbn [read star set_star].
  split; [|done]. intros id' Hne. by apply own_value_assign_ne.
Qed.

End Render.

(** * The read/star toggles *)




(** For an id that is the name of a member of [Object.prototype] the
    first click finds the inherited member, which is truthy: it writes
    [false], and the flag of the entry, absent before, is [false] after.
    A write to [__proto__] is dropped altogether. *)
Lemma toggle_prototype_name_no_flip :
  (let w1 := (onMiniClick "read" "constructor" fresh_world).1 in
   flag (read (store fresh_world)) "constructor" = false
   ∧ own_value (read (store w1)) "constructor" = Some (JBool false))
  ∧ (let w1 := (onMiniClick "read" "__proto__" fresh_world).1 in
     store w1 = store fresh_world).
Proof. vm_compute. repeat split; reflexivity. Qed.




(** The write of the headline handler to [__proto__] is dropped: no entry
    is made, and the store is as it was. *)
Lemma headline_proto_not_set :
  store (onHeadlineClick "__proto__" fresh_world).1 = store fresh_world
  ∧ own_value (read (store (onHeadlineClick "__proto__" fresh_world).1))
      "__proto__" = None.
Proof. vm_compute. split; reflexivity. Qed.

(** * What a toggle leaves alone *)

(** The two paths of the card-button handler: the empty id, for which it
    returns at once, and any other id. *)
Ltac click_cases id :=
  let Hid := fresh "Hid" in
  destruct (decide (id = "")) as [->|Hid];
  [ rewrite onMiniClick_empty_id; cbn [fst]
  | rewrite onMiniClick_world by done; cbn [state store slot] ].

Section Frame.
Context {env : Platform} {cfg : Config}.

Lemma onMiniClick_page (action id : string) (w : World) :
  page_after_toggle id w (onMiniClick action id w).1.
Proof.
  unfold page_after_toggle. click_cases id.
  - done.
  - rewrite bool_decide_eq_false_2 by done. apply render_rendered_page.
Qed.

Lemma onMiniClick_state (action id : string) (w : World) :
  let w1 := (onMiniClick action id w).1 in
  data (state w1) = data (state w) ∧ same_criteria (state w1) (state w).
Proof.
  intros w1. subst w1. click_cases id.
  - by repeat split.
  - destruct (render_same_criteria (toggle_flags action id (store w)) (state w)).
    by split.
Qed.

Lemma onPageClick_world (btn : PageBtn) (totalPages : Z) (w : World) :
  (onPageClick btn totalPages w).1
  = with_state
      (render (store w) (set_page (requested_page btn totalPages (state w)) (state w))).1
      w.
Proof.
  unfold onPageClick, render_world, with_state. cbn [state store slot].
  fold (requested_page btn totalPages (state w)).
  by destruct (render _ _).
Qed.

Lemma onFilterChange_world (upd : State → State) (w : World) :
  (onFilterChange upd w).1
  = with_state (render (store w) (set_page 1 (upd (state w)))).1 w.
Proof.
  unfold onFilterChange, render_world, with_state. cbn [state store slot].
  by destruct (render _ _).
Qed.

Lemma onFilterChange_page (upd : State → State) (w : World) :
  page (state (onFilterChange upd w).1) = 1.
Proof. rewrite onFilterChange_world. cbn [state with_state]. by apply render_page_1. Qed.

Lemma onPageClick_page (btn : PageBtn) (totalPages : Z) (w : World) :
  let w1 := (onPageClick btn totalPages w).1 in
  page (state w1)
  = rendered_page (store w1) (state w1) (requested_page btn totalPages (state w)).
Proof.
  intros w1. subst w1. rewrite onPageClick_world. cbn [state store with_state].
  apply (render_rendered_page (store w) (set_page _ (state w))).
Qed.

End Frame.

(** C10, as amended. On a store of two plain mappings, a click on the read
    button of any id changes at most that id's entry of the read mapping:
    every other entry, the whole star mapping, the dataset and the filter
    criteria are as before. The handler does not assign the page number;
    the render that follows leaves it as it was when no item matches, and
    otherwise sets it to [clamp(page, 1, totalPages)] of the result now
    shown. The same holds of the star button with the two mappings
    exchanged. *)
Theorem toggle_frame `{env : Platform} `{cfg : Config} (id : string) (w : World) :
  plain_store (store w) →
  (let w1 := (onMiniClick "read" id w).1 in
   read_toggle_frame id w w1 ∧ page_after_toggle id w w1)
  ∧ (let w1 := (onMiniClick "star" id w).1 in
     star_toggle_frame id w w1 ∧ page_after_toggle id w w1).
Proof.
  intros [Hr Hs].
  split; intros w1; (split; [|apply onMiniClick_page]).
  - destruct (onMiniClick_state "read" id w) as [Hd Hc].
    unfold read_toggle_frame. fold w1 in Hd, Hc.
    split; [|split; [|by split]]; subst w1.
    + intros id' Hne. click_cases id; [done|]. by apply toggle_read_others.
    + click_cases id; [done|]. by apply toggle_read_others.
  - destruct (onMiniClick_state "star" id w) as [Hd Hc].
    unfold star_toggle_frame. fold w1 in Hd, Hc.
    split; [|split; [|by split]]; subst w1.
    + intros id' Hne. click_cases id; [done|]. by apply toggle_star_others.
    + click_cases id; [done|]. by apply toggle_star_others.
Qed.

(** On a first visit with two items loaded, marking "b" read keeps page 1
    and the entry of "a". *)
Lemma toggle_frame_witness :
  let w := run [FetchSettled (ok_response [item_A; item_B]) 0] fresh_world in
  let w1 := (onMiniClick "read" "b" w).1 in
  plain_store (store w)
  ∧ read_toggle_frame "b" w w1
  ∧ page (state w1) = 1.
Proof.
  intros w w1.
  assert (Hplain : plain_store (store w)) by (split; exact I).
  destruct (toggle_frame "b" w Hplain) as [[Hframe Hpage] _].
  split; [exact Hplain|]. split; [exact Hframe|].
  fold w1 in Hpage. unfold page_after_toggle in Hpage.
  rewrite Hpage. vm_compute. reflexivity.
Defined.

(** C10, as stated, fails on the page number: with 51 starred items shown
    "starred only" and page 2 open, removing the star of the one item on
    that page leaves 50 items, a single page, and the render moves the
    page number from 2 to 1. *)
Lemma unstar_moves_page :
  let w := run star_all_then_page_2 fresh_world in
  let w1 := (onMiniClick "star" "51" w).1 in
  page (state w) = 2 ∧ page (state w1) = 1.
Proof. vm_compute. split; reflexivity. Qed.

(** * When the page number goes back to 1 *)

(** C7, as amended. Every change of a filter criterion (query, source,
    topic, hide-read, starred-only, and Escape clearing the query) leaves
    the page number at 1. The read/star toggle never assigns the page
    number: for the empty id nothing happens, and otherwise the render
    that follows leaves the page number as it was when no item matches and
    sets it to [clamp(page, 1, totalPages)] of the result now shown when
    one does. A pagination button assigns the page it asks for, of which
    the render makes the same. *)
Theorem page_reset_policy `{env : Platform} `{cfg : Config} (w : World) :
  (∀ e, changes_criterion e = true → page (state (handle e w).1) = 1)
  ∧ (∀ action id, page_after_toggle id w (onMiniClick action id w).1)
  ∧ (∀ btn totalPages,
       let w1 := (onPageClick btn totalPages w).1 in
       page (state w1)
       = rendered_page (store w1) (state w1)
           (requested_page btn totalPages (state w))).
Proof.
  split; [|split].
  - intros [] He; try discriminate He; apply onFilterChange_page.
  - intros action id. apply onMiniClick_page.
  - intros btn totalPages. apply onPageClick_page.
Qed.

(** Typing a query on page 2 of 51 items goes back to page 1; going to
    page 2 lands on page 2, and asking for page 7 lands on page 2 as
    well. *)
Lemma page_reset_policy_witness :
  let w := run (browse_to_page_2 (numbered_items 51)) fresh_world in
  page (state w) = 2
  ∧ changes_criterion (QueryInput "head") = true
  ∧ page (state (handle (QueryInput "head") w).1) = 1
  ∧ page (state (onPageClick (BtnNum 2) 2 w).1) = 2
  ∧ page (state (onPageClick (BtnNum 7) 2 w).1) = 2.
Proof.
  intros w.
  destruct (page_reset_policy w) as (Hfilter & _ & Hnav).
  split; [vm_compute; reflexivity|].
  split; [reflexivity|].
  split; [exact (Hfilter (QueryInput "head") eq_refl)|].
  split.
  - rewrite (Hnav (BtnNum 2) 2). vm_compute. reflexivity.
  - rewrite (Hnav (BtnNum 7) 2). vm_compute. reflexivity.
Defined.

(** C7, as stated, fails for the toggles: with 51 items, "hide read" on and
    page 2 open, marking the one item of that page read leaves 50 items, a
    single page, and the page number goes from 2 back to 1. *)
Lemma mark_read_resets_page :
  let w := run (browse_to_page_2 (numbered_items 51)) fresh_world in
  let w1 := (onMiniClick "read" "51" w).1 in
  page (state w) = 2 ∧ page (state w1) = 1.
Proof. vm_compute. split; reflexivity. Qed.

(** * The page invariant across renders *)

(** Whenever at least one item matches, the render leaves the page number
    within [1, totalPages] of the filtered result. *)
Lemma render_restores_page_in_range `{env : Platform} `{cfg : Config} (w : World) :
  filtered_of (store w) (state w) ≠ [] →
  page_in_range (render_world w).1.
Proof.
  intros Hf. unfold page_in_range, render_world.
  destruct (render (store w) (state w)) as [st' v] eqn:Hr.
  cbn [fst state store with_state].
  assert (Hst : st' = (render (store w) (state w)).1) by by rewrite Hr.
  rewrite Hst, filtered_of_render. by apply render_page_match.
Qed.

(** C3. The render path taken when no item matches does not restore the
    invariant. From a first visit: 51 items sharing the id "x" are loaded,
    "hide read" is ticked, page 2 is opened and its one item is marked read.
    All 51 items are now hidden; the render shows "No results", writes
    "Page 2 of 1", and leaves the stored page number at 2 although
    [totalPages] is 1. *)
Theorem render_no_match_keeps_page :
  let w := run (browse_to_page_2 (same_id_items 51)) fresh_world in
  let r := onMiniClick "read" "x" w in
  page (state w) = 2
  ∧ filtered_of (store r.1) (state r.1) = []
  ∧ totalPages_of (length (filtered_of (store r.1) (state r.1))) = 1
  ∧ page (state r.1) = 2
  ∧ (content <$> r.2) = Some NoResults
  ∧ (pageMeta <$> (r.2 ≫= pagination)) = Some (2, 1)
  ∧ ¬ page_in_range r.1.
Proof.
  intros w r.
  assert (Hp : page (state r.1) = 2) by (vm_compute; reflexivity).
  assert (Hf : filtered_of (store r.1) (state r.1) = [])
    by (vm_compute; reflexivity).
  assert (Ht : totalPages_of (length (filtered_of (store r.1) (state r.1))) = 1)
    by (rewrite Hf; vm_compute; reflexivity).
  split; [vm_compute; reflexivity|].
  split; [exact Hf|]. split; [exact Ht|]. split; [exact Hp|].
  split; [vm_compute; reflexivity|]. split; [vm_compute; reflexivity|].
  unfold page_in_range. rewrite Ht, Hp. lia.
Qed.

(** The same defect seen on [render] alone: a state with page 2 and a
    dataset that holds no item. *)
Lemma render_empty_dataset_keeps_page :
  let st := set_page 2 (set_data (Some (dataset [])) initial_state) in
  page (render empty_store st).1 = 2
  ∧ totalPages_of (length (filtered_of empty_store st)) = 1.
Proof. vm_compute. split; reflexivity. Qed.

(** * Fetch failures *)

Section Fetch.
Context {env : Platform} {cfg : Config}.

Lemma fetchAndRender_failure (f : Fetched) (e : Err) (now : Z) (w : World) :
  fetchCandidates f = inl e →
  (fetchAndRender f now w).1 = with_state (set_data None (state w)) w.
Proof. intros He. unfold fetchAndRender. by rewrite He. Qed.

Lemma fetchAndRender_data (f : Fetched) (now : Z) (w : World) :
  data (state (fetchAndRender f now w).1)
  = match fetchCandidates f with
    | inr (Some d) => Some d
    | _ => None
    end.
Proof.
  unfold fetchAndRender. destruct (fetchCandidates f) as [e|[d|]]; try done.
  destruct (render _ _) as [st' v] eqn:Hr. cbn [state with_state].
  assert (Hst : st' = (render (store w)
      (set_page 1 (set_fetchedAt (Some now) (set_data (Some d) (state w))))).1)
    by by rewrite Hr.
  rewrite Hst. by destruct (render_same_criteria (store w)
      (set_page 1 (set_fetchedAt (Some now) (set_data (Some d) (state w))))).
Qed.

Lemma status_message_differs (n : Z) :
  "API did not return JSON." ≠ String.append "HTTP " (pretty n).
Proof. intros Heq. discriminate Heq. Qed.

End Fetch.

(** C5, as amended. When a fetch resolves with an HTTP error status and a
    JSON body whose [error] field is a non-empty text, the failure message
    is exactly that text; when the field is the empty text or is missing,
    the message is "HTTP" followed by the status code. A body that is not
    JSON yields the message "API did not return JSON.", which no status
    message equals. On every fetch failure the dataset is cleared,
    whatever was loaded before. *)
Theorem fetch_failure_message `{env : Platform} `{cfg : Config} :
  (∀ resp d t,
     ok resp = false → body resp = ObjectBody d → error d = Some (JStr t) →
     t ≠ "" →
     fetchCandidates (Resolved resp) = inl (new_Error t))
  ∧ (∀ resp d,
       ok resp = false → body resp = ObjectBody d →
       error d = Some (JStr "") ∨ error d = None →
       fetchCandidates (Resolved resp)
       = inl (new_Error (String.append "HTTP " (pretty (status resp)))))
  ∧ (∀ resp,
       body resp = NotJsonBody →
       fetchCandidates (Resolved resp) = inl (new_Error "API did not return JSON.")
       ∧ ∀ n : Z, "API did not return JSON." ≠ String.append "HTTP " (pretty n))
  ∧ (∀ f e now w,
       fetchCandidates f = inl e →
       data (state (fetchAndRender f now w).1) = None
       ∧ store (fetchAndRender f now w).1 = store w
       ∧ same_criteria (state (fetchAndRender f now w).1) (state w)).
Proof.
  split; [|split; [|split]].
  - intros resp d t Hok Hbody Herr Ht. unfold fetchCandidates.
    rewrite Hbody, Hok, Herr. cbn.
    by rewrite (proj2 (eqb_false_iff t "")) by done.
  - intros resp d Hok Hbody [Herr|Herr]; unfold fetchCandidates;
      by rewrite Hbody, Hok, Herr.
  - intros resp Hbody. split; [|apply status_message_differs].
    unfold fetchCandidates. by rewrite Hbody.
  - intros f e now w He. rewrite (fetchAndRender_failure f e now w He).
    by repeat split.
Qed.

(** The scenario of the specification: status 429 with the body
    [{error: "rate limited"}], after a successful fetch of three items. *)
Lemma fetch_failure_message_witness :
  let w := run [FetchSettled (ok_response [item_A; item_B; item_C]) 0] fresh_world in
  let f := Resolved (error_response 429 (JStr "rate limited")) in
  data (state w) = Some (dataset [item_A; item_B; item_C])
  ∧ fetchCandidates f = inl (new_Error "rate limited")
  ∧ data (state (fetchAndRender f 1 w).1) = None.
Proof.
  intros w f.
  destruct fetch_failure_message as (Htext & _ & _ & Hclear).
  assert (Hmsg : fetchCandidates f = inl (new_Error "rate limited")).
  { apply (Htext (error_response 429 (JStr "rate limited"))
             {| items := None; error := Some (JStr "rate limited") |}
             "rate limited"); [reflexivity|reflexivity|reflexivity|discriminate]. }
  split; [vm_compute; reflexivity|]. split; [exact Hmsg|].
  exact (proj1 (Hclear f (new_Error "rate limited") 1 w Hmsg)).
Defined.

(** C5, as stated, fails for an empty error text: status 500 with the body
    [{error: ""}] gives the message "HTTP 500", not the server's text. *)
Lemma empty_error_text_gives_status :
  let resp := error_response 500 (JStr "") in
  ok resp = false
  ∧ (∃ d, body resp = ObjectBody d ∧ error d = Some (JStr ""))
  ∧ fetchCandidates (Resolved resp) = inl (new_Error "HTTP 500")
  ∧ fetchCandidates (Resolved resp) ≠ inl (new_Error "").
Proof.
  split; [reflexivity|]. split; [by eexists|].
  split; [vm_compute; reflexivity|]. vm_compute. discriminate.
Qed.

(** * Markup escaping *)

Lemma append_assoc (a b c : string) :
  String.append (String.append a b) c = String.append a (String.append b c).
Proof.
  induction a as [|d a IH]; [done|]. by rewrite !append_cons, IH.
Qed.

Lemma replaceAll_char_app (c : ascii) (r a b : string) :
  replaceAll_char c r (String.append a b)
  = String.append (replaceAll_char c r a) (replaceAll_char c r b).
Proof.
  induction a as [|d a IH]; [done|].
  rewrite append_cons. cbn [replaceAll_char]. rewrite IH.
  destruct (Ascii.eqb d c); [|by rewrite append_cons].
  symmetry. apply append_assoc.
Qed.

Lemma escapeHtml_cons (c : ascii) (s : string) :
  escapeHtml (Some (String c s))
  = String.append (entity c) (escapeHtml (Some s)).
Proof.
  unfold escapeHtml, entity. cbn [from_option id replaceAll_char].
  destruct (Ascii.eqb_spec c "&") as [->|Hamp].
  { cbv iota. by rewrite !replaceAll_char_app. }
  cbv iota. cbn [replaceAll_char].
  destruct (Ascii.eqb_spec c "<") as [->|Hlt].
  { cbv iota. by rewrite !replaceAll_char_app. }
  cbv iota. cbn [replaceAll_char].
  destruct (Ascii.eqb_spec c ">") as [->|Hgt].
  { cbv iota. by rewrite !replaceAll_char_app. }
  cbv iota. cbn [replaceAll_char].
  destruct (Ascii.eqb_spec c dquote) as [->|Hdq].
  { cbv iota. by rewrite !replaceAll_char_app. }
  cbv iota. cbn [replaceAll_char].
  destruct (Ascii.eqb_spec c "'") as [->|Hsq]; [done|].
  by rewrite append_cons, append_empty.
Qed.

Lemma escapeHtml_missing : escapeHtml None = "" ∧ escapeHtml (Some "") = "".
Proof. by split. Qed.

Lemma chars_app (a b : string) : chars (String.append a b) = (chars a ++ chars b)%list.
Proof.
  induction a as [|c a IH]; [done|].
  rewrite append_cons. cbn [chars]. by rewrite IH.
Qed.

Lemma entity_chars (c d : ascii) :
  d ∈ chars (entity c) →
  d ≠ "<"%char ∧ d ≠ ">"%char ∧ d ≠ dquote ∧ d ≠ "'"%char.
Proof.
  unfold entity.
  destruct (Ascii.eqb_spec c "&") as [->|Hamp];
    [|destruct (Ascii.eqb_spec c "<") as [->|Hlt];
      [|destruct (Ascii.eqb_spec c ">") as [->|Hgt];
        [|destruct (Ascii.eqb_spec c dquote) as [->|Hdq];
          [|destruct (Ascii.eqb_spec c "'") as [->|Hsq]]]]];
    cbn [chars]; intros Hin.
  6: { apply list_elem_of_singleton in Hin as ->. done. }
  all: repeat (apply elem_of_cons in Hin as [->|Hin]; [by repeat split|]).
  all: by apply elem_of_nil in Hin.
Qed.

(** X1. The escaped text never holds a character that opens or closes a
    tag or an attribute value: no "<", no ">", no double quote, no single
    quote, whatever the input. *)
Theorem escapeHtml_safe (str : option string) (d : ascii) :
  d ∈ chars (escapeHtml str) →
  d ≠ "<"%char ∧ d ≠ ">"%char ∧ d ≠ dquote ∧ d ≠ "'"%char.
Proof.
  destruct str as [s|]; [|intros Hin; by apply elem_of_nil in Hin].
  induction s as [|c s IH]; [intros Hin; by apply elem_of_nil in Hin|].
  rewrite escapeHtml_cons, chars_app. intros [Hin|Hin]%elem_of_app.
  - by apply (entity_chars c).
  - by apply IH.
Qed.

Lemma escapeHtml_safe_witness :
  "<"%char ∈ chars "a<b"
  ∧ "t"%char ∈ chars (escapeHtml (Some "a<b"))
  ∧ "t"%char ≠ "<"%char.
Proof.
  assert (Hin : "t"%char ∈ chars (escapeHtml (Some "a<b"))).
  { vm_compute. do 3 apply list_elem_of_further. apply list_elem_of_here. }
  split; [apply list_elem_of_further, list_elem_of_here|].
  split; [exact Hin|].
  exact (proj1 (escapeHtml_safe (Some "a<b") "t" Hin)).
Defined.

Lemma unescapeHtml_entity (c : ascii) (t : string) :
  unescapeHtml (String.append (entity c) t) = String c (unescapeHtml t).
Proof.
  unfold entity.
  destruct (Ascii.eqb_spec c "&") as [->|Hamp];
    [|destruct (Ascii.eqb_spec c "<") as [->|Hlt];
      [|destruct (Ascii.eqb_spec c ">") as [->|Hgt];
        [|destruct (Ascii.eqb_spec c dquote) as [->|Hdq];
          [|destruct (Ascii.eqb_spec c "'") as [->|Hsq]]]]];
    rewrite ?append_cons, append_empty; try reflexivity.
  cbn [unescapeHtml]. by rewrite (proj2 (Ascii.eqb_neq c "&")).
Qed.

(** X2. Escaping loses nothing: reading the entities back gives the text
    that was escaped, so two different texts never escape to the same
    markup. *)
Theorem escapeHtml_round_trip (s t : string) :
  unescapeHtml (escapeHtml (Some s)) = s
  ∧ (escapeHtml (Some s) = escapeHtml (Some t) ↔ s = t).
Proof.
  assert (Hback : ∀ u, unescapeHtml (escapeHtml (Some u)) = u).
  { induction u as [|c u IH]; [done|].
    by rewrite escapeHtml_cons, unescapeHtml_entity, IH. }
  split; [apply Hback|]. split; [|by intros ->].
  intros Heq. by rewrite <- (Hback s), Heq, Hback.
Qed.

(** X3. Text without any of the five characters is left as it is, and the
    escape of a concatenation is the concatenation of the escapes. *)
Theorem escapeHtml_compositional (a b : string) :
  escapeHtml (Some (String.append a b))
  = String.append (escapeHtml (Some a)) (escapeHtml (Some b))
  ∧ ((∀ c, c ∈ chars a → is_markup_char c = false) → escapeHtml (Some a) = a).
Proof.
  split.
  - induction a as [|c a IH]; [done|].
    by rewrite append_cons, !escapeHtml_cons, IH, append_assoc.
  - induction a as [|c a IH]; [done|]. intros Hplain.
    rewrite escapeHtml_cons, IH.
    + pose proof (Hplain c (list_elem_of_here _ _)) as Hc.
      unfold is_markup_char in Hc. unfold entity.
      destruct (Ascii.eqb c "&"), (Ascii.eqb c "<"), (Ascii.eqb c ">"),
        (Ascii.eqb c dquote), (Ascii.eqb c "'"); try discriminate Hc.
      by rewrite append_cons, append_empty.
    + intros d Hd. apply Hplain. by apply list_elem_of_further.
Qed.

Lemma escapeHtml_compositional_witness :
  (∀ c, c ∈ chars "Rates held" → is_markup_char c = false)
  ∧ escapeHtml (Some "Rates held") = "Rates held".
Proof.
  assert (Hplain : ∀ c, c ∈ chars "Rates held" → is_markup_char c = false).
  { intros c Hc. cbn [chars] in Hc.
    repeat (apply elem_of_cons in Hc as [->|Hc]; [reflexivity|]).
    by apply elem_of_nil in Hc. }
  split; [exact Hplain|].
  exact (proj2 (escapeHtml_compositional "Rates held" "") Hplain).
Defined.

(** * Theme *)

Lemma updateThemeButton_frame (theme : string) (pg : ThemePage) :
  theme_slot (updateThemeButton theme pg) = theme_slot pg
  ∧ data_theme (updateThemeButton theme pg) = data_theme pg.
Proof. unfold updateThemeButton. by destruct (themeBtn pg). Qed.

Lemma initTheme_data_theme (pg : ThemePage) :
  data_theme (initTheme pg)
  = if bool_decide (theme_slot pg = Some "dark") then Some "dark"
    else Some "light".
Proof.
  unfold initTheme.
  rewrite (proj2 (updateThemeButton_frame _ _)). cbn [data_theme setAttribute_theme].
  destruct (theme_slot pg) as [saved|]; [|done].
  destruct (String.eqb_spec saved "dark") as [->|Hd]; [done|].
  rewrite bool_decide_eq_false_2 by congruence.
  by destruct (String.eqb_spec saved "light") as [->|Hl].
Qed.

Lemma toggleTheme_data_theme (pg : ThemePage) :
  data_theme (toggleTheme pg)
  = if bool_decide (data_theme pg = Some "dark") then Some "light"
    else Some "dark".
Proof.
  unfold toggleTheme.
  rewrite (proj2 (updateThemeButton_frame _ _)). cbn [data_theme setAttribute_theme].
  destruct (data_theme pg) as [a|]; [|done].
  destruct (String.eqb_spec a "") as [->|He]; [done|].
  destruct (String.eqb_spec a "dark") as [->|Hd]; [done|].
  rewrite bool_decide_eq_false_2; [done|congruence].
Qed.

Lemma toggleTheme_slot (pg : ThemePage) :
  theme_slot (toggleTheme pg) = data_theme (toggleTheme pg).
Proof.
  unfold toggleTheme.
  rewrite (proj1 (updateThemeButton_frame _ _)),
    (proj2 (updateThemeButton_frame _ _)).
  reflexivity.
Qed.

(** X4. Whatever the storage slot holds (nothing, "dark", "light" or any
    other text), [initTheme] leaves the page in the light or the dark
    theme: the stored one when it is one of the two, light otherwise. It
    never writes the slot. *)
Theorem initTheme_tolerant (pg : ThemePage) :
  is_theme (data_theme (initTheme pg))
  ∧ (is_theme (theme_slot pg) → data_theme (initTheme pg) = theme_slot pg)
  ∧ (¬ is_theme (theme_slot pg) → data_theme (initTheme pg) = Some "light")
  ∧ theme_slot (initTheme pg) = theme_slot pg.
Proof.
  rewrite initTheme_data_theme. unfold is_theme.
  split; [|split; [|split]].
  - case_bool_decide; [by right|by left].
  - intros [->| ->]; by case_bool_decide.
  - intros Hno. case_bool_decide; [|done]. destruct Hno. by right.
  - unfold initTheme. by rewrite (proj1 (updateThemeButton_frame _ _)).
Qed.

Lemma initTheme_tolerant_witness :
  let pg := {| theme_slot := Some "sepia"; data_theme := None; themeBtn := None |} in
  ¬ is_theme (theme_slot pg) ∧ data_theme (initTheme pg) = Some "light".
Proof.
  intros pg.
  assert (Hno : ¬ is_theme (theme_slot pg)) by (intros [H|H]; discriminate H).
  split; [exact Hno|].
  exact (proj1 (proj2 (proj2 (initTheme_tolerant pg))) Hno).
Defined.

(** X5. After [toggleTheme] the page is in the light or the dark theme and
    the storage slot holds that very theme, so that a page load followed by
    [initTheme] shows it again. From the light or the dark theme a toggle
    gives the other one, and two toggles give the first back. *)
Theorem toggleTheme_persists (markup pg : ThemePage) :
  is_theme (data_theme (toggleTheme pg))
  ∧ theme_slot (toggleTheme pg) = data_theme (toggleTheme pg)
  ∧ data_theme (initTheme (reload_page markup (toggleTheme pg)))
    = data_theme (toggleTheme pg)
  ∧ (is_theme (data_theme pg) →
     data_theme (toggleTheme pg) ≠ data_theme pg
     ∧ data_theme (toggleTheme (toggleTheme pg)) = data_theme pg).
Proof.
  assert (Hth : is_theme (data_theme (toggleTheme pg))).
  { rewrite toggleTheme_data_theme. case_bool_decide; [by left|by right]. }
  split; [exact Hth|]. split; [apply toggleTheme_slot|]. split.
  - rewrite initTheme_data_theme. cbn [theme_slot reload_page].
    rewrite toggleTheme_slot.
    destruct Hth as [Hth|Hth]; rewrite Hth; by case_bool_decide.
  - intros Hpg. rewrite !toggleTheme_data_theme.
    destruct Hpg as [Hpg|Hpg]; rewrite Hpg; by split.
Qed.

Lemma toggleTheme_persists_witness :
  let pg := initTheme {| theme_slot := None; data_theme := None; themeBtn := None |} in
  is_theme (data_theme pg)
  ∧ data_theme (toggleTheme pg) = Some "dark"
  ∧ data_theme (toggleTheme (toggleTheme pg)) = data_theme pg.
Proof.
  intros pg.
  assert (Hpg : is_theme (data_theme pg)) by (left; reflexivity).
  destruct (toggleTheme_persists pg pg) as (_ & _ & _ & Hflip).
  split; [exact Hpg|]. split; [reflexivity|]. exact (proj2 (Hflip Hpg)).
Defined.

(** X6. After [initTheme] and after [toggleTheme] the theme button, when
    the page has one, agrees with the theme now shown: its label is "Dark"
    in the dark theme and "Light" otherwise, and its title names the theme
    a click switches to. A page without the button stays without it. *)
Theorem theme_button_label (pg : ThemePage) :
  let agrees (p : ThemePage) :=
    ∃ theme, data_theme p = Some theme
      ∧ themeBtn p
        = match themeBtn pg with
          | Some _ =>
              Some {| btn_textContent :=
                        if String.eqb theme "dark" then "Dark" else "Light";
                      btn_title :=
                        if String.eqb theme "dark" then "Switch to Light"
                        else "Switch to Dark" |}
          | None => None
          end in
  agrees (initTheme pg) ∧ agrees (toggleTheme pg).
Proof.
  intros agrees. subst agrees. cbv beta. split.
  - unfold initTheme.
    set (theme := match theme_slot pg with
                  | Some saved =>
                      if String.eqb saved "dark" || String.eqb saved "light"
                      then saved else "light"
                  | None => "light"
                  end).
    exists theme. unfold updateThemeButton. cbn [themeBtn setAttribute_theme].
    destruct (themeBtn pg) eqn:Hb; (split; [reflexivity|]); [reflexivity|].
    exact Hb.
  - unfold toggleTheme.
    set (next := if String.eqb _ "dark" then "light" else "dark").
    exists next. unfold updateThemeButton. cbn [themeBtn setAttribute_theme].
    destruct (themeBtn pg) eqn:Hb; split; reflexivity.
Qed.

(** * More on the filter engine *)

Lemma filter_filter_same {A} (f : A → bool) (l : list A) :
  List.filter f (List.filter f l) = List.filter f l.
Proof.
  induction l as [|x l IH]; [done|]. cbn [List.filter].
  destruct (f x) eqn:Hfx; [|done]. cbn [List.filter]. by rewrite Hfx, IH.
Qed.

Lemma filter_ext_in_list {A} (f g : A → bool) (l : list A) :
  (∀ x, x ∈ l → f x = g x) → List.filter f l = List.filter g l.
Proof.
  intros Hfg. apply filter_ext_in. intros x Hx. apply Hfg.
  by apply list_elem_of_In.
Qed.

Lemma filter_all {A} (f : A → bool) (l : list A) :
  (∀ x, x ∈ l → f x = true) → List.filter f l = l.
Proof.
  induction l as [|x l IH]; [done|]. intros Hall. cbn [List.filter].
  rewrite (Hall x (list_elem_of_here _ _)), IH; [done|].
  intros y Hy. apply Hall. by apply list_elem_of_further.
Qed.

Lemma filter_and {A} (f g : A → bool) (l : list A) :
  List.filter f (List.filter g l) = List.filter (λ x, g x && f x) l.
Proof.
  induction l as [|x l IH]; [done|]. cbn [List.filter].
  destruct (g x); cbn [List.filter andb]; [|done].
  by destruct (f x); rewrite IH.
Qed.

(** X7. Filtering is idempotent and local: filtering a filtered list again
    changes nothing, and the result on two lists put end to end is the two
    results put end to end. *)
Theorem applyFilters_idempotent `{env : Platform} (st : State) (sto : Store)
    (its more : list Item) :
  applyFilters st sto (applyFilters st sto its) = applyFilters st sto its
  ∧ applyFilters st sto (its ++ more)%list
    = (applyFilters st sto its ++ applyFilters st sto more)%list.
Proof.
  unfold applyFilters. split; [apply filter_filter_same|apply List.filter_app].
Qed.

(** X8. With no source, no topic, both check boxes off and a query that is
    empty once trimmed and lowercased, every item is kept: the result is
    the input. *)
Theorem applyFilters_no_criteria `{env : Platform} (st : State) (sto : Store)
    (its : list Item) :
  source st = "" → topic st = "" → hideRead st = false → starOnly st = false →
  toLowerCase (trim (q st)) = "" →
  applyFilters st sto its = its.
Proof.
  intros Hs Ht Hh Hso Hq. unfold applyFilters. apply filter_all.
  intros it _. unfold keep. by rewrite Hs, Ht, Hh, Hso, Hq.
Qed.

Lemma applyFilters_no_criteria_witness :
  let st := set_q "   " initial_state in
  toLowerCase (trim (q st)) = ""
  ∧ applyFilters st store_A_read [item_A; item_B; item_C]
    = [item_A; item_B; item_C].
Proof.
  intros st.
  assert (Hq : toLowerCase (trim (q st)) = "") by reflexivity.
  split; [exact Hq|].
  exact (applyFilters_no_criteria st store_A_read [item_A; item_B; item_C]
           eq_refl eq_refl eq_refl eq_refl Hq).
Defined.

(** X9. The read flags matter to the filter only while "hide read" is on,
    and the star flags only while "starred only" is on: with both boxes
    off, any two stores give the same result. *)
Theorem applyFilters_ignores_unused_flags `{env : Platform} (st : State)
    (sto1 sto2 : Store) (its : list Item) :
  (hideRead st = false ∨ read sto1 = read sto2) →
  (starOnly st = false ∨ star sto1 = star sto2) →
  applyFilters st sto1 its = applyFilters st sto2 its.
Proof.
  intros Hr Hs. unfold applyFilters. apply filter_ext_in_list.
  intros it _. unfold keep.
  destruct Hr as [-> | ->], Hs as [-> | ->]; reflexivity.
Qed.

Lemma applyFilters_ignores_unused_flags_witness :
  hideRead query_goldmint = false ∧ starOnly query_goldmint = false
  ∧ applyFilters query_goldmint store_A_read [item_A; item_gold_mint]
    = applyFilters query_goldmint empty_store [item_A; item_gold_mint].
Proof.
  split; [reflexivity|]. split; [reflexivity|].
  exact (applyFilters_ignores_unused_flags query_goldmint store_A_read
           empty_store [item_A; item_gold_mint]
           (or_introl eq_refl) (or_introl eq_refl)).
Defined.

(** X10. The criteria narrow one another: the result under any criteria
    is the result of the same criteria with "hide read" off, less the items
    for which the read of [store.read[id]] is truthy; with "starred only"
    on it is the result with the box off, less the items for which the
    read of [store.star[id]] is not truthy. Ticking a box never brings an
    item in. *)
Theorem applyFilters_boxes_narrow `{env : Platform} (st : State) (sto : Store)
    (its : list Item) :
  applyFilters (set_hideRead true st) sto its
  = List.filter (λ it, negb (reads_truthy (read sto) (id_of it)))
      (applyFilters (set_hideRead false st) sto its)
  ∧ applyFilters (set_starOnly true st) sto its
    = List.filter (λ it, reads_truthy (star sto) (id_of it))
        (applyFilters (set_starOnly false st) sto its)
  ∧ sublist (applyFilters (set_hideRead true st) sto its)
            (applyFilters (set_hideRead false st) sto its)
  ∧ sublist (applyFilters (set_starOnly true st) sto its)
            (applyFilters (set_starOnly false st) sto its).
Proof.
  assert (Hread : applyFilters (set_hideRead true st) sto its
    = List.filter (λ it, negb (reads_truthy (read sto) (id_of it)))
        (applyFilters (set_hideRead false st) sto its)).
  { unfold applyFilters. rewrite filter_and. apply filter_ext_in_list.
    intros it _. unfold keep. cbn [source topic hideRead starOnly q set_hideRead].
    destruct (negb (String.eqb (source st) "")
              && negb (String.eqb (feedTitle it) (source st))); [done|].
    destruct (negb (String.eqb (topic st) "") && _); [done|].
    cbn [andb].
    destruct (reads_truthy (read sto) (id_of it)); cbn [negb andb];
      [by rewrite andb_false_r|by rewrite andb_true_r]. }
  assert (Hstar : applyFilters (set_starOnly true st) sto its
    = List.filter (λ it, reads_truthy (star sto) (id_of it))
        (applyFilters (set_starOnly false st) sto its)).
  { unfold applyFilters. rewrite filter_and. apply filter_ext_in_list.
    intros it _. unfold keep. cbn [source topic hideRead starOnly q set_starOnly].
    destruct (negb (String.eqb (source st) "")
              && negb (String.eqb (feedTitle it) (source st))); [done|].
    destruct (negb (String.eqb (topic st) "") && _); [done|].
    destruct (hideRead st && reads_truthy (read sto) (id_of it)); [done|].
    cbn [andb].
    destruct (reads_truthy (star sto) (id_of it)); cbn [negb andb];
      [by rewrite andb_true_r|by rewrite andb_false_r]. }
  split; [exact Hread|]. split; [exact Hstar|]. split.
  - rewrite Hread. apply filter_sublist.
  - rewrite Hstar. apply filter_sublist.
Qed.

(** X11. On a plain read mapping and with "hide read" on, marking read an
    id whose read of [store.read[id]] is not truthy takes the items that
    carry this id out of the result and no other item; with "hide read"
    off the result stays as it is. *)
Theorem mark_read_hides_item `{env : Platform} `{cfg : Config} (id : string)
    (sto : Store) (st : State) :
  is_plain (read sto) →
  reads_truthy (read sto) id = false →
  filtered_of (toggle_flags "read" id sto) st
  = if hideRead st
    then List.filter (λ it, negb (String.eqb (id_of it) id)) (filtered_of sto st)
    else filtered_of sto st.
Proof.
  intros Hplain Hunread. unfold filtered_of.
  destruct (data st) as [d|]; [|by destruct (hideRead st)].
  destruct (hideRead st) eqn:Hh.
  - unfold applyFilters. rewrite filter_and. apply filter_ext_in_list.
    intros it _. rewrite toggle_flags_read, Hunread. unfold keep.
    cbn [read star set_read negb]. rewrite Hh.
    destruct (negb (String.eqb (source st) "")
              && negb (String.eqb (feedTitle it) (source st))); [done|].
    destruct (negb (String.eqb (topic st) "") && _); [done|].
    cbn [andb].
    destruct (String.eqb_spec (id_of it) id) as [->|Hne].
    + rewrite reads_truthy_assign_true, Hunread by done. cbn [negb andb].
      by rewrite andb_false_r.
    + rewrite reads_truthy_assign_ne by done. cbn [negb].
      by rewrite andb_true_r.
  - unfold applyFilters. apply filter_ext_in_list.
    intros it _. unfold keep. by rewrite Hh.
Qed.

Lemma mark_read_hides_item_witness :
  let st := set_data (Some (dataset [item_A; item_B; item_C])) reuters_unread in
  is_plain (read store_A_read)
  ∧ reads_truthy (read store_A_read) "b" = false
  ∧ filtered_of store_A_read st = [item_B]
  ∧ filtered_of (toggle_flags "read" "b" store_A_read) st = [].
Proof.
  intros st.
  assert (Hplain : is_plain (read store_A_read)) by exact I.
  assert (Hb : reads_truthy (read store_A_read) "b" = false) by reflexivity.
  split; [exact Hplain|]. split; [exact Hb|]. split; [vm_compute; reflexivity|].
  rewrite (mark_read_hides_item "b" store_A_read st Hplain Hb).
  vm_compute. reflexivity.
Defined.

(** * More on the paginator *)

(** X12. [clampPage] returns a page from 1 on for every pair of numbers,
    also for a page count of zero or less; it never exceeds a positive page
    count, leaves a page that is in range as it is, and clamping twice is
    clamping once. *)
Theorem clampPage_total `{cfg : Config} (p totalPages : Z) :
  1 ≤ clampPage p totalPages
  ∧ clampPage p totalPages ≤ Z.max 1 totalPages
  ∧ (totalPages ≤ 0 → clampPage p totalPages = 1)
  ∧ (1 ≤ p ≤ totalPages → clampPage p totalPages = p)
  ∧ clampPage (clampPage p totalPages) totalPages = clampPage p totalPages.
Proof.
  unfold clampPage. destruct (Z.leb_spec totalPages 0); lia.
Qed.

Lemma clampPage_total_witness :
  0 ≤ 0 ∧ clampPage 7 0 = 1 ∧ 1 ≤ 2 ≤ 3 ∧ clampPage 2 3 = 2.
Proof.
  destruct (clampPage_total 7 0) as (_ & _ & Hzero & _).
  destruct (clampPage_total 2 3) as (_ & _ & _ & Hin & _).
  assert (H0 : 0 ≤ 0) by (intros Hc; discriminate Hc).
  assert (H23 : 1 ≤ 2 ≤ 3) by (split; intros Hc; discriminate Hc).
  split; [exact H0|]. split; [exact (Hzero H0)|].
  split; [exact H23|]. exact (Hin H23).
Defined.

(** X13. For a page size above zero a page never holds more than
    [PAGE_SIZE] items, every page before the last holds exactly
    [PAGE_SIZE], and the items of the page are items of the list, in the
    list's order. *)
Theorem getPaged_page_length `{cfg : Config} (st : State) (its : list Item) :
  0 < PAGE_SIZE →
  let pageItems := (getPaged st its).2.1 in
  let currentPage := page (getPaged st its).1 in
  let totalPages := (getPaged st its).2.2 in
  Z.of_nat (length pageItems) ≤ PAGE_SIZE
  ∧ (currentPage < totalPages → Z.of_nat (length pageItems) = PAGE_SIZE)
  ∧ sublist pageItems its.
Proof.
  intros HP pageItems currentPage totalPages.
  assert (Hit : pageItems
                = take (Z.to_nat PAGE_SIZE)
                    (drop (Z.to_nat ((currentPage - 1) * PAGE_SIZE)) its))
    by apply getPaged_pageItems, HP.
  assert (Hrg : 1 ≤ currentPage ≤ totalPages).
  { subst currentPage totalPages. rewrite getPaged_page.
    apply clampPage_range. rewrite getPaged_totalPages. lia. }
  split; [|split].
  - rewrite Hit, length_take. lia.
  - intros Hlt. rewrite Hit, length_take, length_drop.
    subst totalPages. rewrite getPaged_totalPages in Hlt, Hrg.
    pose proof (ceil_div_bounds (Z.of_nat (length its)) PAGE_SIZE HP). nia.
  - rewrite Hit. etrans; [apply sublist_take|apply sublist_drop].
Qed.

Lemma getPaged_page_length_witness :
  let its := numbered_items 120 in
  let st := set_page 2 initial_state in
  0 < PAGE_SIZE
  ∧ page (getPaged st its).1 < (getPaged st its).2.2
  ∧ Z.of_nat (length (getPaged st its).2.1) = PAGE_SIZE.
Proof.
  intros its st.
  assert (HP : 0 < PAGE_SIZE) by reflexivity.
  assert (Hlt : page (getPaged st its).1 < (getPaged st its).2.2)
    by (vm_compute; reflexivity).
  split; [exact HP|]. split; [exact Hlt|].
  exact (proj1 (proj2 (getPaged_page_length st its HP)) Hlt).
Defined.

(** [getPaged] settles at once. *)
Lemma getPaged_settles `{cfg : Config} (st : State) (its : list Item) :
  getPaged (getPaged st its).1 its = getPaged st its.
Proof.
  unfold getPaged. cbn [fst snd page set_page].
  set (tp := Z.max 1 (ceil_div (Z.of_nat (length its)) PAGE_SIZE)).
  assert (Hidem : clampPage (clampPage (page st) tp) tp = clampPage (page st) tp).
  { apply clampPage_id, clampPage_range. subst tp. lia. }
  by rewrite Hidem.
Qed.

(** * The pagination bar *)

Section Bar.
Context {env : Platform} {cfg : Config}.

Lemma totalPages_of_0 : totalPages_of 0 = 1.
Proof. reflexivity. Qed.

(** The view of a render, by its three paths. *)
Lemma render_view (sto : Store) (st : State) :
  (render sto st).2
  = match data st with
    | None => {| content := Fetching; pagination := None |}
    | Some _ =>
        if bool_decide (filtered_of sto st = [])
        then {| content := NoResults;
                pagination := Some (renderPagination st 1) |}
        else {| content := Cards (getPaged st (filtered_of sto st)).2.1;
                pagination :=
                  Some (renderPagination (getPaged st (filtered_of sto st)).1
                          (totalPages_of (length (filtered_of sto st)))) |}
    end.
Proof.
  unfold render, filtered_of. destruct (data st) as [d|]; [|done].
  destruct (applyFilters st sto (allItems d)) as [|it its] eqn:Hf; [done|].
  by rewrite bool_decide_eq_false_2.
Qed.

(** The bar of a render: its page is the stored page, its page count the
    one of the filtered result. *)
Lemma render_bar (sto : Store) (st : State) (bar : Pagination) :
  pagination (render sto st).2 = Some bar →
  bar = renderPagination (render sto st).1
          (totalPages_of (length (filtered_of sto st))).
Proof.
  rewrite render_view. unfold render, filtered_of.
  destruct (data st) as [d|]; [|done].
  destruct (applyFilters st sto (allItems d)) as [|it its] eqn:Hf.
  - rewrite bool_decide_eq_true_2 by done. cbn. by intros [= <-].
  - rewrite bool_decide_eq_false_2 by done. cbn. by intros [= <-].
Qed.

End Bar.

Lemma render_pagination_bar_aux `{env : Platform} `{cfg : Config}
    (sto : Store) (st : State) (bar : Pagination) :
  pagination (render sto st).2 = Some bar →
  let total := totalPages_of (length (filtered_of sto st)) in
  captured_totalPages bar = total
  ∧ (∀ k, k ∈ numbered bar → 1 ≤ k ≤ total)
  ∧ (page (render sto st).1 = 1 → prev_disabled bar = true)
  ∧ (page (render sto st).1 = total → next_disabled bar = true).
Proof.
  intros Hbar total. pose proof (render_bar sto st bar Hbar) as ->.
  fold total.
  cbn [captured_totalPages numbered prev_disabled next_disabled renderPagination].
  split; [done|]. split; [|split; apply Z.eqb_eq].
  intros k. rewrite elem_of_seqZ. lia.
Qed.

(** X15. The bar that a render writes shows the stored page and the page
    count of the filtered result; its numbered buttons are 1, 2, ... up to
    the page count but never more than [MAX_VISIBLE_PAGES] of them; "Prev"
    is disabled exactly on page 1 and "Next" exactly on the last page. A
    render without dataset writes no bar. *)
Theorem render_pagination_bar `{env : Platform} `{cfg : Config}
    (sto : Store) (st : State) :
  let st' := (render sto st).1 in
  let total := totalPages_of (length (filtered_of sto st)) in
  match pagination (render sto st).2 with
  | None => data st = None
  | Some bar =>
      data st ≠ None
      ∧ pageMeta bar = (page st', total)
      ∧ captured_totalPages bar = total
      ∧ numbered bar = seqZ 1 (Z.min total MAX_VISIBLE_PAGES)
      ∧ (∀ k, k ∈ numbered bar ↔ 1 ≤ k ≤ total ∧ k ≤ MAX_VISIBLE_PAGES)
      ∧ (prev_disabled bar = true ↔ page st' = 1)
      ∧ (next_disabled bar = true ↔ page st' = total)
  end.
Proof.
  intros st' total.
  destruct (pagination (render sto st).2) as [bar|] eqn:Hbar.
  - pose proof (render_bar sto st bar Hbar) as ->. fold st' total.
    split.
    { rewrite render_view in Hbar. by destruct (data st). }
    cbn [pageMeta captured_totalPages numbered prev_disabled next_disabled
         renderPagination].
    split; [done|]. split; [done|]. split; [done|].
    split; [|split; apply Z.eqb_eq].
    intros k. rewrite elem_of_seqZ. lia.
  - rewrite render_view in Hbar. destruct (data st); [|done].
    by case_bool_decide.
Qed.

(** X16. Every enabled button of the bar does what it says when clicked
    right after the render: a numbered button leads to its page; while at
    least one item matches, "Next" leads to the following page, "Prev" to
    the preceding one, and the page stays within [1, totalPages]. *)
Theorem pagination_click_lands `{env : Platform} `{cfg : Config}
    (w : World) (bar : Pagination) (btn : PageBtn) :
  pagination (render_world w).2 = Some bar →
  offered_by bar btn →
  let w1 := (render_world w).1 in
  let w2 := (onPageClick btn (captured_totalPages bar) w1).1 in
  match btn with
  | BtnNum k => page (state w2) = k
  | BtnNext =>
      filtered_of (store w) (state w) ≠ [] →
      page (state w2) = page (state w1) + 1 ∧ page_in_range w2
  | BtnPrev =>
      filtered_of (store w) (state w) ≠ [] →
      page (state w2) = page (state w1) - 1 ∧ page_in_range w2
  end.
Proof.
  intros Hbar Hoff w1 w2.
  assert (Hw1 : w1 = with_state (render (store w) (state w)).1 w).
  { subst w1. unfold render_world. by destruct (render _ _). }
  assert (Hbar' : pagination (render (store w) (state w)).2 = Some bar).
  { revert Hbar. unfold render_world. by destruct (render _ _). }
  pose proof (render_pagination_bar_aux (store w) (state w) bar Hbar')
    as (Htot & Hnum & Hprev & Hnext).
  set (total := totalPages_of (length (filtered_of (store w) (state w)))) in *.
  assert (Hf1 : filtered_of (store w1) (state w1) = filtered_of (store w) (state w)).
  { rewrite Hw1. cbn [store state with_state]. apply filtered_of_render. }
  assert (Hland : ∀ p, 1 ≤ p ≤ total →
            page (state (with_state
              (render (store w1) (set_page p (state w1))).1 w1)) = p
            ∧ page_in_range (with_state
              (render (store w1) (set_page p (state w1))).1 w1)).
  { intros p Hp. cbn [state store with_state].
    assert (Hpage : page (render (store w1) (set_page p (state w1))).1 = p).
    { apply render_page_in_range. rewrite filtered_of_set_page, Hf1. exact Hp. }
    split; [exact Hpage|]. unfold page_in_range. cbn [state store with_state].
    rewrite filtered_of_render, filtered_of_set_page, Hf1, Hpage. exact Hp. }
  subst w2. rewrite onPageClick_world.
  pose proof (totalPages_of_ge_1 (length (filtered_of (store w) (state w)))) as Hge.
  fold total in Hge.
  destruct btn as [| |k]; cbn [requested_page offered_by] in *.
  - intros Hne.
    destruct (render_page_match (store w) (state w) Hne) as [_ Hrg].
    fold total in Hrg.
    assert (Hp1 : page (state w1) = page (render (store w) (state w)).1)
      by by rewrite Hw1.
    assert (Hnot1 : page (state w1) ≠ 1).
    { intros H1. rewrite Hp1 in H1. apply Hprev in H1. congruence. }
    rewrite Z.max_r by lia. apply Hland. lia.
  - intros Hne. rewrite Htot.
    destruct (render_page_match (store w) (state w) Hne) as [_ Hrg].
    fold total in Hrg.
    assert (Hp1 : page (state w1) = page (render (store w) (state w)).1)
      by by rewrite Hw1.
    assert (Hnotlast : page (state w1) ≠ total).
    { intros H1. rewrite Hp1 in H1. apply Hnext in H1. congruence. }
    rewrite Z.min_r by lia. apply Hland. lia.
  - apply Hnum in Hoff. destruct (Z.eqb_spec k 0) as [->|_]; [lia|].
    apply Hland. lia.
Qed.

Lemma pagination_click_lands_witness :
  let w := run [FetchSettled (ok_response (numbered_items 120)) 0] fresh_world in
  let bar := renderPagination (state w) 3 in
  pagination (render_world w).2 = Some bar
  ∧ offered_by bar BtnNext
  ∧ filtered_of (store w) (state w) ≠ []
  ∧ page (state (onPageClick BtnNext 3 (render_world w).1).1) = 2.
Proof.
  intros w bar.
  assert (Hbar : pagination (render_world w).2 = Some bar)
    by (vm_compute; reflexivity).
  assert (Hoff : offered_by bar BtnNext) by (vm_compute; reflexivity).
  assert (Hne : filtered_of (store w) (state w) ≠ [])
    by (vm_compute; discriminate).
  split; [exact Hbar|]. split; [exact Hoff|]. split; [exact Hne|].
  exact (proj1 (pagination_click_lands w bar BtnNext Hbar Hoff Hne)).
Defined.

(** * What a render shows *)

(** X17. A render shows "Fetching" exactly when there is no dataset, "No
    results" exactly when there is one and no item matches, and cards
    otherwise. For a page size above zero the cards are never an empty
    list, never more than [PAGE_SIZE], and each of them is an item of the
    dataset that survives the five checks, its two flags being what the
    reads of [store.read[id]] and [store.star[id]] find. *)
Theorem render_content `{env : Platform} `{cfg : Config} (sto : Store) (st : State) :
  0 < PAGE_SIZE →
  match content (render sto st).2 with
  | Fetching => data st = None
  | NoResults => data st ≠ None ∧ filtered_of sto st = []
  | Cards shown =>
      filtered_of sto st ≠ []
      ∧ shown ≠ []
      ∧ Z.of_nat (length shown) ≤ PAGE_SIZE
      ∧ sublist shown (filtered_of sto st)
      ∧ ∀ it, it ∈ shown →
          (∃ d, data st = Some d ∧ it ∈ allItems d)
          ∧ passes reads_truthy spaced_text st sto it
  | Failed _ => False
  end.
Proof.
  intros HP. rewrite render_view.
  destruct (data st) as [d|] eqn:Hd; [|done].
  case_bool_decide as Hf; cbn [content]; [done|].
  set (f := filtered_of sto st) in *.
  assert (Hit : (getPaged st f).2.1
                = take (Z.to_nat PAGE_SIZE)
                    (drop (Z.to_nat ((page (getPaged st f).1 - 1) * PAGE_SIZE)) f))
    by apply getPaged_pageItems, HP.
  assert (Hsub : sublist (getPaged st f).2.1 f).
  { rewrite Hit. etrans; [apply sublist_take|apply sublist_drop]. }
  split; [done|]. split; [|split; [|split; [done|]]].
  - intros Hnil. apply Hf.
    assert (Hrg : 1 ≤ page (getPaged st f).1
                  ≤ Z.max 1 (ceil_div (Z.of_nat (length f)) PAGE_SIZE)).
    { rewrite getPaged_page, getPaged_totalPages. apply clampPage_range. lia. }
    destruct f as [|x f'] eqn:Hfe; [done|exfalso].
    assert (Hpos : 0 < Z.of_nat (length (x :: f'))) by (cbn [length]; lia).
    pose proof (page_start_lt _ _ HP Hpos Hrg) as Hst.
    apply (f_equal length) in Hnil. rewrite Hit in Hnil.
    rewrite length_take, length_drop in Hnil.
    change (length []) with 0%nat in Hnil. lia.
  - rewrite Hit, length_take. lia.
  - intros it Hin.
    assert (Hinf : it ∈ f) by (eapply elem_of_sublist; [exact Hin|exact Hsub]).
    subst f. unfold filtered_of in Hinf. rewrite Hd in Hinf.
    apply applyFilters_elem in Hinf as [Hall Hpass].
    split; [by exists d|done].
Qed.

Lemma render_content_witness :
  let st := set_data (Some (dataset [item_A; item_B; item_C])) reuters_unread in
  0 < PAGE_SIZE
  ∧ content (render store_A_read st).2 = Cards [item_B]
  ∧ passes reads_truthy spaced_text st store_A_read item_B.
Proof.
  intros st.
  assert (HP : 0 < PAGE_SIZE) by reflexivity.
  assert (Hc : content (render store_A_read st).2 = Cards [item_B])
    by (vm_compute; reflexivity).
  pose proof (render_content store_A_read st HP) as Hr.
  rewrite Hc in Hr. destruct Hr as (_ & _ & _ & _ & Hall).
  split; [exact HP|]. split; [exact Hc|].
  exact (proj2 (Hall item_B (list_elem_of_here _ _))).
Defined.

(** * Invariants of the event loop *)

Section Loop.
Context {env : Platform} {cfg : Config}.

Lemma fetchAndRender_world (f : Fetched) (now : Z) (w : World) :
  ∃ st', (fetchAndRender f now w).1 = with_state st' w.
Proof.
  unfold fetchAndRender.
  destruct (match fetchCandidates f with
            | inl e => fetch_failed e (state w)
            | inr d => _
            end) as [st' v].
  by exists st'.
Qed.

(** Every handler but the two card clicks returns the world with another
    state at most. *)
Lemma handle_state_only (e : Event) (w : World) :
  is_card_click e = false → ∃ st', (handle e w).1 = with_state st' w.
Proof.
  destruct e; intros He; try discriminate He; cbn [handle].
  1-6: rewrite onFilterChange_world; by eexists.
  - rewrite onPageClick_world. by eexists.
  - apply fetchAndRender_world.
Qed.



Lemma run_snoc (es : list Event) (e : Event) (w : World) :
  run (es ++ [e]) w = (handle e (run es w)).1.
Proof. unfold run. by rewrite fold_left_app. Qed.

Lemma run_invariant (P : World → Prop) (Q : Event → Prop) :
  (∀ e w, Q e → P w → P (handle e w).1) →
  ∀ es w, Forall Q es → P w → P (run es w).
Proof.
  intros Hstep es. induction es as [|e es IH] using rev_ind; [done|].
  intros w [Hes He]%Forall_app Hw. rewrite Forall_singleton in He.
  rewrite run_snoc. apply Hstep; [exact He|]. by apply IH.
Qed.


Lemma render_page_ge_1 (sto : Store) (st : State) :
  1 ≤ page st → 1 ≤ page (render sto st).1.
Proof.
  intros Hp. rewrite render_page. case_bool_decide; [done|].
  pose proof (totalPages_of_ge_1 (length (filtered_of sto st))) as Hge.
  pose proof (clampPage_range (page st) _ Hge). lia.
Qed.

Lemma handle_page_ge_1 (e : Event) (w : World) :
  plausible e → 1 ≤ page (state w) → 1 ≤ page (state (handle e w).1).
Proof.
  intros He Hw. destruct e; cbn [handle].
  1-6: rewrite onFilterChange_page; lia.
  - rewrite onPageClick_world. cbn [state with_state].
    apply render_page_ge_1. cbn [page set_page].
    destruct He as [Htp Hbtn]. destruct btn as [| |k]; cbn [requested_page].
    + lia.
    + lia.
    + destruct (Z.eqb_spec k 0); lia.
  - destruct (decide (id = "")) as [->|Hid].
    + by rewrite onMiniClick_empty_id.
    + rewrite onMiniClick_world by done. cbn [state].
      by apply render_page_ge_1.
  - destruct (decide (id = "")) as [->|Hid]; [done|].
    by rewrite onHeadlineClick_world.
  - unfold fetchAndRender.
    destruct (fetchCandidates f) as [err|[d|]]; cbn [fst state with_state].
    + exact Hw.
    + destruct (render _ _) as [st' v] eqn:Hr. cbn [state with_state].
      assert (Hst : st' = (render (store w)
        (set_page 1 (set_fetchedAt (Some now) (set_data (Some d) (state w))))).1)
        by by rewrite Hr.
      rewrite Hst. apply render_page_ge_1. cbn. lia.
    + cbn. lia.
Qed.

End Loop.



(** X19. Each part of the world has its own writers: only the two card
    clicks change the store or the storage slot, only a settled fetch
    changes the dataset and the fetch time, and the card clicks and the
    pagination buttons leave the filter criteria alone. *)
Theorem handlers_write_their_own `{env : Platform} `{cfg : Config}
    (e : Event) (w : World) :
  let w1 := (handle e w).1 in
  (is_card_click e = false → store w1 = store w ∧ slot w1 = slot w)
  ∧ (is_fetch e = false →
     data (state w1) = data (state w) ∧ fetchedAt (state w1) = fetchedAt (state w))
  ∧ (changes_criterion e = false → same_criteria (state w1) (state w)).
Proof.
  intros w1. subst w1. split; [|split].
  - intros He. by destruct (handle_state_only e w He) as [st' ->].
  - intros He. destruct e; try discriminate He; cbn [handle].
    1-6: rewrite onFilterChange_world; cbn [state with_state];
         rewrite render_state; by split.
    + rewrite onPageClick_world. cbn [state with_state].
      rewrite render_state. by split.
    + destruct (decide (id = "")) as [->|Hid].
      * by rewrite onMiniClick_empty_id.
      * rewrite onMiniClick_world by done. cbn [state].
        rewrite render_state. by split.
    + destruct (decide (id = "")) as [->|Hid]; [done|].
      by rewrite onHeadlineClick_world.
  - intros He. destruct e; try discriminate He; cbn [handle].
    + rewrite onPageClick_world. cbn [state with_state].
      rewrite render_state. by repeat split.
    + destruct (decide (id = "")) as [->|Hid].
      * by rewrite onMiniClick_empty_id.
      * rewrite onMiniClick_world by done. cbn [state].
        rewrite render_state. by repeat split.
    + destruct (decide (id = "")) as [->|Hid]; [done|].
      by rewrite onHeadlineClick_world.
    + unfold fetchAndRender.
      destruct (fetchCandidates f) as [err|[d|]]; cbn [fst state with_state].
      * by repeat split.
      * destruct (render _ _) as [st' v] eqn:Hr. cbn [state with_state].
        assert (Hst : st' = (render (store w)
          (set_page 1 (set_fetchedAt (Some now) (set_data (Some d) (state w))))).1)
          by by rewrite Hr.
        rewrite Hst, render_state. by repeat split.
      * by repeat split.
Qed.

Lemma handlers_write_their_own_witness :
  let w := run (browse_to_page_2 (numbered_items 51)) fresh_world in
  let e := FetchSettled (Rejected "Failed to fetch") 1 in
  is_card_click e = false
  ∧ store (handle e w).1 = store w
  ∧ same_criteria (state (handle e w).1) (state w).
Proof.
  intros w e.
  destruct (handlers_write_their_own e w) as (Hstore & _ & Hcrit).
  split; [reflexivity|]. split; [exact (proj1 (Hstore eq_refl))|].
  exact (Hcrit eq_refl).
Defined.

(** X20. The stored page number never falls below 1: it is 1 at the start,
    whatever the storage slot holds, and stays at least 1 through any
    sequence of events whose pagination clicks come from a rendered bar (a
    page count and a page number from 1 on). *)
Theorem page_never_below_1 `{env : Platform} `{cfg : Config}
    (raw : persisted) (es : list Event) :
  Forall plausible es →
  1 ≤ page (state (run es (boot raw))).
Proof.
  intros Hes.
  apply (run_invariant (λ w, 1 ≤ page (state w)) plausible).
  - intros e w. apply handle_page_ge_1.
  - exact Hes.
  - cbn. lia.
Qed.

Lemma page_never_below_1_witness :
  let es := (browse_to_page_2 (numbered_items 51) ++ [PageClick BtnPrev 2])%list in
  Forall plausible es
  ∧ 1 ≤ page (state (run es (boot persisted_array))).
Proof.
  intros es.
  assert (Hes : Forall plausible es).
  { repeat constructor; cbn; intros Hc; discriminate Hc. }
  split; [exact Hes|].
  exact (page_never_below_1 persisted_array es Hes).
Defined.

(** * More on fetching *)

(** X21. [fetchCandidates] returns data exactly when the request resolved
    with an OK status and a JSON body; an error status never yields data,
    whatever the body, and a body that is not JSON never does, whatever the
    status. The message shown for a failure is never empty: an error
    without message is shown by its name. *)
Theorem fetchCandidates_outcome (f : Fetched) :
  (∀ d, fetchCandidates f = inr d
        ↔ ∃ resp, f = Resolved resp ∧ ok resp = true
                  ∧ match body resp with
                    | NotJsonBody => False
                    | NullBody => d = None
                    | ObjectBody d' => d = Some d'
                    end)
  ∧ (∀ e, fetchCandidates f = inl e → shown_message e ≠ "").
Proof.
  split.
  - intros d. destruct f as [msg|resp]; cbn [fetchCandidates].
    { split; [done|]. by intros (resp & [=] & _). }
    split.
    + intros Hr. exists resp. split; [done|].
      destruct (body resp), (ok resp); cbn in Hr; try discriminate Hr;
        (split; [done|]); congruence.
    + intros (resp' & [= <-] & Hok & Hb). rewrite Hok.
      destruct (body resp); cbn; [done|by subst|by subst].
  - intros e He. unfold shown_message.
    destruct (String.eqb_spec (err_message e) "") as [Hm|Hm]; [|done].
    destruct f as [msg|resp]; cbn [fetchCandidates] in He.
    { by injection He as <-. }
    destruct (body resp) as [| |d]; [by injection He as <-| |].
    + destruct (ok resp); cbn in He; [done|]. by injection He as <-.
    + destruct (ok resp); cbn in He; [done|]. by injection He as <-.
Qed.

(** An error body whose [error] field is an empty array: the message is
    empty and the name is shown instead. *)
Lemma fetchCandidates_outcome_witness :
  let f := Resolved (error_response 503 (JArr [])) in
  fetchCandidates f = inl (new_Error "")
  ∧ shown_message (new_Error "") ≠ ""
  ∧ shown_message (new_Error "") = "Error".
Proof.
  intros f.
  assert (He : fetchCandidates f = inl (new_Error "")) by reflexivity.
  split; [exact He|].
  split; [exact (proj2 (fetchCandidates_outcome f) (new_Error "") He)|].
  reflexivity.
Defined.

(** X22. A fetch that resolves with an OK status and a JSON object replaces
    the dataset by that object, records the time, puts the page number back
    to 1 and keeps the filter criteria, so that the page is within range of
    the new result. A JSON [null] with an OK status ends as a failure, the
    dataset cleared, yet with the page number already at 1 and the time
    already recorded. *)
Theorem fetch_success `{env : Platform} `{cfg : Config}
    (resp : Response) (now : Z) (w : World) :
  ok resp = true →
  let w1 := (fetchAndRender (Resolved resp) now w).1 in
  match body resp with
  | ObjectBody d =>
      data (state w1) = Some d ∧ page_in_range w1
      ∧ page (state w1) = 1 ∧ fetchedAt (state w1) = Some now
      ∧ same_criteria (state w1) (state w)
  | NullBody =>
      data (state w1) = None
      ∧ page (state w1) = 1 ∧ fetchedAt (state w1) = Some now
      ∧ same_criteria (state w1) (state w)
  | NotJsonBody =>
      data (state w1) = None
      ∧ page (state w1) = page (state w) ∧ fetchedAt (state w1) = fetchedAt (state w)
      ∧ same_criteria (state w1) (state w)
  end.
Proof.
  intros Hok w1. subst w1. unfold fetchAndRender, fetchCandidates.
  rewrite Hok. destruct (body resp) as [| |d]; cbn [negb fst state with_state].
  - by repeat split.
  - by repeat split.
  - set (st1 := set_page 1 (set_fetchedAt (Some now) (set_data (Some d) (state w)))).
    destruct (render (store w) st1) as [st' v] eqn:Hr.
    cbn [fst state with_state].
    assert (Hst : st' = (render (store w) st1).1) by by rewrite Hr.
    assert (Hp1 : page st' = 1) by (rewrite Hst; by apply render_page_1).
    split; [by rewrite Hst, render_state|]. split.
    { unfold page_in_range. cbn [state store with_state]. rewrite Hp1.
      pose proof (totalPages_of_ge_1
                    (length (filtered_of (store w) st'))). lia. }
    split; [exact Hp1|].
    rewrite Hst, render_state. by repeat split.
Qed.

Lemma fetch_success_witness :
  let w := run (browse_to_page_2 (numbered_items 51)) fresh_world in
  let resp := {| ok := true; status := 200;
                 body := ObjectBody (dataset [item_A; item_B]) |} in
  ok resp = true
  ∧ page (state w) = 2
  ∧ page (state (fetchAndRender (Resolved resp) 7 w).1) = 1
  ∧ hideRead (state (fetchAndRender (Resolved resp) 7 w).1) = true.
Proof.
  intros w resp.
  assert (Hok : ok resp = true) by reflexivity.
  pose proof (fetch_success resp 7 w Hok) as (_ & _ & Hp & _ & Hc).
  split; [exact Hok|]. split; [vm_compute; reflexivity|].
  split; [exact Hp|].
  destruct Hc as (_ & _ & _ & Hh & _). rewrite Hh. vm_compute. reflexivity.
Defined.

(** * Select options *)

Lemma new_Set_elem (arr : list string) (x : string) :
  x ∈ new_Set arr ↔ x ∈ arr.
Proof.
  induction arr as [|y arr IH]; [done|]. cbn [new_Set].
  rewrite !elem_of_cons, list_elem_of_In, filter_In, <- list_elem_of_In, IH.
  rewrite negb_true_iff, eqb_false_iff.
  destruct (decide (x = y)); tauto.
Qed.

Lemma filter_NoDup {A} (f : A → bool) (l : list A) :
  NoDup l → NoDup (List.filter f l).
Proof.
  induction 1 as [|x l Hx Hl IH]; cbn [List.filter]; [constructor|].
  destruct (f x); [|done]. constructor; [|done].
  rewrite list_elem_of_In, filter_In, <- list_elem_of_In. tauto.
Qed.

Lemma new_Set_NoDup (arr : list string) : NoDup (new_Set arr).
Proof.
  induction arr as [|y arr IH]; [constructor|]. cbn [new_Set].
  constructor; [|by apply filter_NoDup].
  rewrite list_elem_of_In, filter_In, negb_true_iff, eqb_false_iff. tauto.
Qed.

Lemma sort_insert_perm (cmp : string → string → Z) (x : string) (l : list string) :
  sort_insert cmp x l ≡ₚ x :: l.
Proof.
  induction l as [|y l IH]; [done|]. cbn [sort_insert].
  destruct (cmp x y <=? 0); [done|]. by rewrite IH, Permutation_swap.
Qed.

Lemma Array_sort_perm (cmp : string → string → Z) (arr : list string) :
  Array_sort cmp arr ≡ₚ arr.
Proof.
  induction arr as [|x arr IH]; [done|].
  cbn [Array_sort foldr]. rewrite sort_insert_perm. by f_equiv.
Qed.

Lemma sort_insert_sorted (cmp : string → string → Z) (x : string) (l : list string) :
  (∀ a b, not_after cmp a b ∨ not_after cmp b a) →
  Sorted (not_after cmp) l → Sorted (not_after cmp) (sort_insert cmp x l).
Proof.
  intros Htotal. induction l as [|y l IH]; intros Hs; cbn [sort_insert].
  - by repeat constructor.
  - destruct (Z.leb_spec (cmp x y) 0) as [Hxy|Hxy].
    + constructor; [done|]. by constructor.
    + apply Sorted_inv in Hs as [Hs Hhd]. constructor; [by apply IH|].
      assert (Hyx : not_after cmp y x).
      { destruct (Htotal x y) as [H|H]; [unfold not_after in H; lia|done]. }
      destruct l as [|z l]; cbn [sort_insert]; [by constructor|].
      destruct (cmp x z <=? 0); constructor; [done|].
      by apply HdRel_inv in Hhd.
Qed.

Lemma Array_sort_sorted (cmp : string → string → Z) (arr : list string) :
  (∀ a b, not_after cmp a b ∨ not_after cmp b a) →
  Sorted (not_after cmp) (Array_sort cmp arr).
Proof.
  intros Htotal. induction arr as [|x arr IH]; [constructor|].
  cbn [Array_sort foldr]. by apply sort_insert_sorted.
Qed.

Lemma filter_Boolean_elem (arr : list (option string)) (x : string) :
  x ∈ filter_Boolean arr ↔ x ≠ "" ∧ Some x ∈ arr.
Proof.
  unfold filter_Boolean. rewrite list_elem_of_omap. split.
  - intros ([s|] & Hin & Hx); [|done].
    destruct (String.eqb_spec s "") as [->|Hs]; [done|].
    injection Hx as <-. by split.
  - intros [Hne Hin]. exists (Some x). split; [done|].
    by rewrite (proj2 (eqb_false_iff x "")).
Qed.

Lemma feedTitle_feed_title_of (it : Item) :
  feedTitle it = default "" (feed_title_of it).
Proof. unfold feedTitle, feed_title_of. by destruct (item_feed it). Qed.

Section OptionLists.
Context {env : Platform} {loc : Locale}.

Lemma uniqSorted_elem (arr : list string) (x : string) :
  x ∈ uniqSorted arr ↔ x ∈ arr.
Proof. unfold uniqSorted. by rewrite Array_sort_perm, new_Set_elem. Qed.

Lemma uniqSorted_NoDup (arr : list string) : NoDup (uniqSorted arr).
Proof. unfold uniqSorted. rewrite Array_sort_perm. apply new_Set_NoDup. Qed.

Lemma sources_elem (its : list Item) (s : string) :
  s ∈ (buildFilters its).1
  ↔ s ≠ "" ∧ ∃ it, it ∈ its ∧ feed_title_of it = Some s.
Proof.
  cbn [buildFilters fst]. rewrite uniqSorted_elem, filter_Boolean_elem.
  rewrite list_elem_of_In, in_map_iff.
  setoid_rewrite <- list_elem_of_In. split.
  - intros [Hne (it & Hft & Hit)]. split; [done|]. by exists it.
  - intros [Hne (it & Hit & Hft)]. split; [done|]. by exists it.
Qed.

Lemma topics_elem (its : list Item) (t : string) :
  t ∈ (buildFilters its).2
  ↔ t ≠ "" ∧ ∃ it ts, it ∈ its ∧ item_tags it = Some ts ∧ t ∈ ts.
Proof.
  cbn [buildFilters snd]. rewrite uniqSorted_elem, filter_Boolean_elem.
  rewrite list_elem_of_In, in_map_iff.
  setoid_rewrite in_flat_map. setoid_rewrite <- list_elem_of_In.
  split.
  - intros [Hne (t' & [= ->] & it & Hit & Ht)]. split; [done|].
    destruct (item_tags it) as [ts|] eqn:Hts; [|by apply elem_of_nil in Ht].
    by exists it, ts.
  - intros [Hne (it & ts & Hit & Hts & Ht)]. split; [done|].
    exists t. split; [done|]. exists it. split; [done|]. by rewrite Hts.
Qed.

End OptionLists.

(** X23. The source options that [buildFilters] writes are the feed titles
    of the items, each once and none empty; the topic options are the tags
    of the items, each once and none empty. When the comparator orders any
    two texts one way or the other, both lists are in its order. *)
Theorem buildFilters_options `{env : Platform} `{loc : Locale} (its : list Item) :
  let sources := (buildFilters its).1 in
  let topics := (buildFilters its).2 in
  NoDup sources ∧ NoDup topics
  ∧ (∀ s, s ∈ sources ↔ s ≠ "" ∧ ∃ it, it ∈ its ∧ feed_title_of it = Some s)
  ∧ (∀ t, t ∈ topics
          ↔ t ≠ "" ∧ ∃ it ts, it ∈ its ∧ item_tags it = Some ts ∧ t ∈ ts)
  ∧ ((∀ a b, not_after localeCompare a b ∨ not_after localeCompare b a) →
     Sorted (not_after localeCompare) sources
     ∧ Sorted (not_after localeCompare) topics).
Proof.
  intros sources topics.
  split; [apply uniqSorted_NoDup|]. split; [apply uniqSorted_NoDup|].
  split; [apply sources_elem|]. split; [apply topics_elem|].
  intros Htotal. split; by apply Array_sort_sorted.
Qed.

Lemma ascii_compare_total (a b : string) :
  not_after ascii_compare a b ∨ not_after ascii_compare b a.
Proof.
  unfold not_after, ascii_compare.
  destruct (String.eqb_spec a b) as [->|Hab].
  - rewrite String.eqb_refl. by left.
  - destruct (String.leb_total a b) as [Hle|Hle]; rewrite Hle.
    + by left.
    + right. by destruct (String.eqb b a).
Qed.

Lemma buildFilters_options_witness :
  (∀ a b, not_after localeCompare a b ∨ not_after localeCompare b a)
  ∧ (buildFilters [item_A; item_B; item_C]).1 = ["AP"; "Reuters"]
  ∧ Sorted (not_after localeCompare) (buildFilters [item_A; item_B; item_C]).1.
Proof.
  pose proof (buildFilters_options [item_A; item_B; item_C])
    as (_ & _ & _ & _ & Hsorted).
  split; [exact ascii_compare_total|]. split; [vm_compute; reflexivity|].
  exact (proj1 (Hsorted ascii_compare_total)).
Defined.

(** X24. A source option selects something and only the options do: with
    the other criteria at rest, choosing a source of the list gives at
    least one item, all of that source; under any criteria, a non-empty
    source that is not in the list gives no item. The same holds of the
    topic options. *)
Theorem options_select_items `{env : Platform} `{loc : Locale}
    (st : State) (sto : Store) (its : list Item) :
  (source st ∈ (buildFilters its).1 →
   topic st = "" → hideRead st = false → starOnly st = false →
   toLowerCase (trim (q st)) = "" →
   applyFilters st sto its ≠ []
   ∧ ∀ it, it ∈ applyFilters st sto its → feed_title_of it = Some (source st))
  ∧ (source st ≠ "" → source st ∉ (buildFilters its).1 →
     applyFilters st sto its = [])
  ∧ (topic st ∈ (buildFilters its).2 →
     source st = "" → hideRead st = false → starOnly st = false →
     toLowerCase (trim (q st)) = "" →
     applyFilters st sto its ≠ [])
  ∧ (topic st ≠ "" → topic st ∉ (buildFilters its).2 →
     applyFilters st sto its = []).
Proof.
  assert (Hnone : ∀ l : list Item, (∀ it, it ∈ l → False) → l = []).
  { intros [|x l] Hl; [done|]. destruct (Hl x). apply list_elem_of_here. }
  split; [|split; [|split]].
  - intros [Hne (it & Hit & Hft)]%sources_elem Ht Hh Hs Hq. split.
    + intros Hnil.
      assert (Hin : it ∈ applyFilters st sto its).
      { apply applyFilters_elem. split; [done|].
        unfold passes, survives_source, survives_topic, survives_hideRead,
          survives_starOnly, survives_query.
        rewrite feedTitle_feed_title_of, Hft, Ht, Hh, Hs, Hq. by repeat split. }
      rewrite Hnil in Hin. by apply elem_of_nil in Hin.
    + intros it' [_ (Hsrc & _)]%applyFilters_elem.
      specialize (Hsrc Hne). rewrite feedTitle_feed_title_of in Hsrc.
      destruct (feed_title_of it') as [s|]; cbn in Hsrc; congruence.
  - intros Hne Hnot. apply Hnone. intros it [Hit (Hsrc & _)]%applyFilters_elem.
    apply Hnot, sources_elem. split; [done|]. exists it. split; [done|].
    specialize (Hsrc Hne). rewrite feedTitle_feed_title_of in Hsrc.
    destruct (feed_title_of it) as [s|]; cbn in Hsrc; congruence.
  - intros [Hne (it & ts & Hit & Hts & Hin)]%topics_elem Hsrc Hh Hs Hq Hnil.
    assert (Hin' : it ∈ applyFilters st sto its).
    { apply applyFilters_elem. split; [done|].
      unfold passes, survives_source, survives_topic, survives_hideRead,
        survives_starOnly, survives_query.
      rewrite Hsrc, Hh, Hs, Hq. repeat split; try done. intros _. by exists ts. }
    rewrite Hnil in Hin'. by apply elem_of_nil in Hin'.
  - intros Hne Hnot. apply Hnone.
    intros it [Hit (_ & Htop & _)]%applyFilters_elem.
    destruct (Htop Hne) as (ts & Hts & Hin).
    apply Hnot, topics_elem. split; [done|]. by exists it, ts.
Qed.

Lemma options_select_items_witness :
  let st := set_source "AP" initial_state in
  source st ∈ (buildFilters [item_A; item_B; item_C]).1
  ∧ applyFilters st empty_store [item_A; item_B; item_C] ≠ [].
Proof.
  intros st.
  assert (Hin : source st ∈ (buildFilters [item_A; item_B; item_C]).1)
    by (vm_compute; apply list_elem_of_here).
  split; [exact Hin|].
  exact (proj1 (proj1 (options_select_items st empty_store
                         [item_A; item_B; item_C])
                  Hin eq_refl eq_refl eq_refl eq_refl)).
Defined.

(** * Cards *)

Lemma slice_sublist {A} (l : list A) (a b : Z) : sublist (slice l a b) l.
Proof. unfold slice. etrans; [apply sublist_take|apply sublist_drop]. Qed.

Lemma slice_first_3 {A} (l : list A) : slice l 0 3 = take 3 l.
Proof. apply (slice_window l 0 3); lia. Qed.

Lemma escapeHtml_nonempty (s : string) : s ≠ "" → escapeHtml (Some s) ≠ "".
Proof.
  destruct s as [|c s]; [done|]. intros _. rewrite escapeHtml_cons.
  unfold entity.
  by destruct (Ascii.eqb c "&"), (Ascii.eqb c "<"), (Ascii.eqb c ">"),
    (Ascii.eqb c dquote), (Ascii.eqb c "'").
Qed.

Lemma or_else_nonempty (a b : string) : b ≠ "" → or_else a b ≠ "".
Proof. unfold or_else. by destruct (String.eqb_spec a ""). Qed.

Section Cards.
Context {env : Platform} {cfg : Config} {loc : Locale}.

(** The items a render shows are items of the filtered result. *)
Lemma render_shown (sto : Store) (st : State) (shown : list Item) :
  content (render sto st).2 = Cards shown → sublist shown (filtered_of sto st).
Proof.
  rewrite render_view. destruct (data st); [|done].
  case_bool_decide; [done|]. cbn [content]. intros [= <-].
  apply slice_sublist.
Qed.

End Cards.

Lemma or_else_cases (a b : string) :
  or_else a b = if bool_decide (a = "") then b else a.
Proof.
  unfold or_else. destruct (String.eqb_spec a "") as [->|Hne]; [done|].
  by rewrite bool_decide_eq_false_2.
Qed.

(** X25. A card always names a source: the label is the feed title, for an
    item without one the host of its link, and the word "Source" when
    there is no host either; it is never empty. The link is the url of the
    item, and "#" for an item without one; the host shown is the one of
    that link. A card shows the first three tags of its item and carries
    its id. *)
Theorem renderItem_defaults `{env : Platform} `{loc : Locale}
    (sto : Store) (it : Item) :
  let card := renderItem sto it in
  card_url card = link_of it
  ∧ card_feedTitle card = escapeHtml (Some (label_of it))
  ∧ card_domain card = escapeHtml (Some (hostFromUrl (link_of it)))
  ∧ card_feedTitle card ≠ ""
  ∧ (feed_title_of it = None → item_url it = None →
     URL_hostname "#" = None → card_feedTitle card = "Source")
  ∧ card_tags card = take 3 (default [] (item_tags it))
  ∧ (length (card_tags card) ≤ 3)%nat
  ∧ card_url card ≠ ""
  ∧ card_id card = id_of it.
Proof.
  intros card. subst card.
  cbn [renderItem card_feedTitle card_tags card_url card_id card_domain].
  assert (Hurl : or_else (default "" (item_url it)) "#" = link_of it).
  { rewrite or_else_cases. unfold link_of.
    destruct (item_url it) as [u|]; [done|].
    cbn [default from_option id]. by rewrite bool_decide_eq_true_2. }
  rewrite Hurl.
  split; [done|]. split; [|split; [done|split; [|split; [|split; [|split; [|split]]]]]].
  - f_equal. f_equal. rewrite !or_else_cases. unfold label_of. cbv zeta.
    destruct (feed_title_of it) as [t|]; cbn [default from_option id].
    + destruct (decide (t = "")) as [->|Ht].
      * by rewrite !(bool_decide_eq_true_2 ("" = "")).
      * by rewrite !(bool_decide_eq_false_2 (t = "")).
    + by rewrite !(bool_decide_eq_true_2 ("" = "")).
  - apply escapeHtml_nonempty, or_else_nonempty. done.
  - intros Hfeed Hu Hhash. unfold link_of. rewrite Hfeed, Hu.
    unfold hostFromUrl. cbn. by rewrite Hhash.
  - destruct (item_tags it) as [ts|]; [|done]. cbn [default from_option id].
    apply slice_first_3.
  - destruct (item_tags it) as [ts|]; [|cbn; lia].
    rewrite slice_first_3, length_take. lia.
  - rewrite <- Hurl. by apply or_else_nonempty.
  - done.
Qed.

Lemma renderItem_defaults_witness :
  let it := Build_Item None None None None None None in
  URL_hostname "#" = None
  ∧ card_feedTitle (renderItem empty_store it) = "Source"
  ∧ card_url (renderItem empty_store it) = "#"
  ∧ card_feedTitle (renderItem empty_store item_A) = "Reuters".
Proof.
  intros it.
  assert (Hhash : URL_hostname "#" = None) by reflexivity.
  destruct (renderItem_defaults empty_store it) as (Hurl & _ & _ & _ & Hsrc & _).
  split; [exact Hhash|].
  split; [exact (Hsrc eq_refl eq_refl Hhash)|].
  split; [exact Hurl|].
  exact (proj1 (proj2 (renderItem_defaults empty_store item_A))).
Defined.

(** X26. The cards of a render agree with the criteria that produced
    them: their badges are what the reads of [store.read[id]] and
    [store.star[id]] find, which on plain mappings and for an id that
    [Object.prototype] has no member of are the flags of the id's entries;
    with "hide read" on no card is marked read, with "starred only" on
    every card is starred, and under a source filter every card is
    labelled with that source. There is one card for each item shown. *)
Theorem cards_agree_with_criteria `{env : Platform} `{cfg : Config}
    `{loc : Locale} (sto : Store) (st : State) (card : Card) :
  card ∈ cards_of sto (render sto st).2 →
  card_isRead card = reads_truthy (read sto) (card_id card)
  ∧ card_isStar card = reads_truthy (star sto) (card_id card)
  ∧ (plain_store sto → ordinary_id (card_id card) →
     card_isRead card = flag (read sto) (card_id card)
     ∧ card_isStar card = flag (star sto) (card_id card))
  ∧ (hideRead st = true → card_isRead card = false)
  ∧ (starOnly st = true → card_isStar card = true)
  ∧ (source st ≠ "" → card_feedTitle card = escapeHtml (Some (source st))).
Proof.
  unfold cards_of.
  destruct (content (render sto st).2) as [| |shown|msg] eqn:Hc;
    try (intros Hin; by apply elem_of_nil in Hin).
  rewrite list_elem_of_In, in_map_iff.
  intros (it & <- & Hit%list_elem_of_In).
  pose proof (render_shown sto st shown Hc) as Hsub.
  assert (Hf : it ∈ filtered_of sto st) by (by eapply elem_of_sublist).
  unfold filtered_of in Hf. destruct (data st) as [d|];
    [|by apply elem_of_nil in Hf].
  apply applyFilters_elem in Hf as [_ (Hsrc & _ & Hread & Hstar & _)].
  cbn [renderItem card_isRead card_isStar card_id card_feedTitle].
  split; [done|]. split; [done|].
  split; [intros [Hr Hs] Hid; by rewrite !reads_truthy_flag|].
  split; [exact Hread|]. split; [exact Hstar|].
  intros Hne. specialize (Hsrc Hne).
  rewrite feedTitle_feed_title_of in Hsrc. rewrite Hsrc.
  unfold or_else. by rewrite !(proj2 (eqb_false_iff (source st) "")).
Qed.

Lemma cards_agree_with_criteria_witness :
  let st := set_data (Some (dataset [item_A; item_B; item_C])) reuters_unread in
  let card := renderItem store_A_read item_B in
  card ∈ cards_of store_A_read (render store_A_read st).2
  ∧ card_isRead card = false
  ∧ card_feedTitle card = "Reuters".
Proof.
  intros st card.
  assert (Hin : card ∈ cards_of store_A_read (render store_A_read st).2)
    by (vm_compute; apply list_elem_of_here).
  destruct (cards_agree_with_criteria store_A_read st card Hin)
    as (_ & _ & _ & Hread & _ & Hlabel).
  split; [exact Hin|]. split; [exact (Hread eq_refl)|].
  rewrite Hlabel; [reflexivity|]. discriminate.
Defined.

(** * How the handlers compose *)

(** X14. Rendering is idempotent: a second render with nothing changed in
    between shows the same view and leaves the state as the first one left
    it. *)
Theorem render_idempotent `{env : Platform} `{cfg : Config} (sto : Store) (st : State) :
  render sto (render sto st).1 = render sto st.
Proof.
  set (st1 := (render sto st).1).
  assert (Hst1 : st1 = set_page (page st1) st) by apply render_state.
  assert (Hf : filtered_of sto st1 = filtered_of sto st)
    by apply filtered_of_render.
  assert (Hd : data st1 = data st) by (by rewrite Hst1).
  apply injective_projections.
  - rewrite (render_state sto st1). fold st1. rewrite Hst1 at 2. cbn [set_page].
    assert (Hp : page (render sto st1).1 = page st1).
    { rewrite render_page, Hf. subst st1. rewrite (render_page sto st).
      case_bool_decide; [done|]. apply clampPage_id, clampPage_range.
      apply totalPages_of_ge_1. }
    rewrite Hp, Hst1. destruct st; reflexivity.
  - rewrite !render_view, Hd, Hf.
    destruct (data st) as [d|]; [|done].
    case_bool_decide as Hempty.
    + assert (Hp : page st1 = page st) by by apply render_page_no_match.
      f_equal. f_equal. unfold renderPagination. by rewrite Hp.
    + assert (Hg : st1 = (getPaged st (filtered_of sto st)).1).
      { subst st1. unfold render, filtered_of in *.
        destruct (data st) as [d'|] eqn:Hd'; [|done].
        destruct (applyFilters st sto (allItems d')) eqn:Hfe; [done|].
        reflexivity. }
      by rewrite Hg, getPaged_settles.
Qed.

(** X27. Starring and marking read do not interfere: on a store of two
    plain mappings, two toggles of different flags, or of the flags of
    different ids, give the same store in either order. *)
Theorem toggles_commute `{env : Platform} (a1 id1 a2 id2 : string) (s : Store) :
  plain_store s →
  a1 ≠ a2 ∨ id1 ≠ id2 →
  toggle_flags a1 id1 (toggle_flags a2 id2 s)
  = toggle_flags a2 id2 (toggle_flags a1 id1 s).
Proof.
  intros [Hr Hs] Hdiff. unfold toggle_flags.
  destruct (String.eqb_spec a1 "read") as [Hr1|Hr1],
    (String.eqb_spec a1 "star") as [Hs1|Hs1],
    (String.eqb_spec a2 "read") as [Hr2|Hr2],
    (String.eqb_spec a2 "star") as [Hs2|Hs2];
    try (subst; discriminate); try reflexivity;
    cbn [read star set_read set_star].
  - assert (Hid : id1 ≠ id2) by (destruct Hdiff; [congruence|done]).
    rewrite !reads_truthy_assign_ne by done.
    unfold set_read. cbn [read star]. f_equal.
    by apply assign_comm.
  - assert (Hid : id1 ≠ id2) by (destruct Hdiff; [congruence|done]).
    rewrite !reads_truthy_assign_ne by done.
    unfold set_star. cbn [read star]. f_equal.
    by apply assign_comm.
Qed.

Lemma toggles_commute_witness :
  plain_store store_A_read
  ∧ ("read" ≠ "star" ∨ "a" ≠ "a")
  ∧ toggle_flags "read" "a" (toggle_flags "star" "a" store_A_read)
    = toggle_flags "star" "a" (toggle_flags "read" "a" store_A_read).
Proof.
  assert (Hplain : plain_store store_A_read) by (split; exact I).
  assert (Hd : "read" ≠ "star" ∨ "a" ≠ "a") by (left; discriminate).
  split; [exact Hplain|]. split; [exact Hd|].
  exact (toggles_commute "read" "a" "star" "a" store_A_read Hplain Hd).
Defined.

(** X28. A click on a headline link hides the item on the next render
    only: the handler renders nothing, and on a plain read mapping with
    "hide read" on the filtered result that the next render will show is
    the present one less the items of that id. *)
Theorem headline_click_hides_later `{env : Platform} `{cfg : Config}
    (id : string) (w : World) :
  is_plain (read (store w)) →
  id ≠ "" →
  let r := onHeadlineClick id w in
  r.2 = None
  ∧ filtered_of (store r.1) (state r.1)
    = if hideRead (state w)
      then List.filter (λ it, negb (String.eqb (id_of it) id))
             (filtered_of (store w) (state w))
      else filtered_of (store w) (state w).
Proof.
  intros Hplain Hid r. subst r. split.
  { unfold onHeadlineClick. by rewrite (proj2 (eqb_false_iff id "")). }
  rewrite onHeadlineClick_world by done. cbn [store state].
  unfold filtered_of. destruct (data (state w)) as [d|];
    [|by destruct (hideRead (state w))].
  destruct (hideRead (state w)) eqn:Hh.
  - unfold applyFilters. rewrite filter_and. apply filter_ext_in_list.
    intros it _. unfold keep. cbn [read star set_read]. rewrite Hh.
    destruct (negb (String.eqb (source (state w)) "")
              && negb (String.eqb (feedTitle it) (source (state w)))); [done|].
    destruct (negb (String.eqb (topic (state w)) "") && _); [done|].
    cbn [andb].
    destruct (String.eqb_spec (id_of it) id) as [->|Hne].
    + rewrite reads_truthy_assign_true by done. cbn [negb andb].
      by rewrite andb_false_r.
    + rewrite reads_truthy_assign_ne by done. cbn [negb].
      by rewrite andb_true_r.
  - unfold applyFilters. apply filter_ext_in_list.
    intros it _. unfold keep. by rewrite Hh.
Qed.

Lemma headline_click_hides_later_witness :
  let st := set_data (Some (dataset [item_A; item_B; item_C])) reuters_unread in
  let w := {| state := st; store := store_A_read; slot := NoEntry |} in
  is_plain (read (store w))
  ∧ "b" ≠ ""
  ∧ filtered_of (store w) (state w) = [item_B]
  ∧ filtered_of (store (onHeadlineClick "b" w).1) (state (onHeadlineClick "b" w).1)
    = [].
Proof.
  intros st w.
  assert (Hplain : is_plain (read (store w))) by exact I.
  assert (Hid : "b" ≠ "") by discriminate.
  split; [exact Hplain|]. split; [exact Hid|]. split; [vm_compute; reflexivity|].
  rewrite (proj2 (headline_click_hides_later "b" w Hplain Hid)).
  vm_compute. reflexivity.
Defined.

